(** * nix_derivation_tools.derivation: a shallow embedding

    The Python module [derivation.py] defines the class [Derivation]: a
    parser for the text of a [.drv] file, three derived properties
    ([name], [input_paths], [output_names]), structural equality, a naive
    diff and a display function.  Python values are dynamically typed, so
    the embedding carries Python values ([literal], [value]), Python
    exceptions ([exn]) and, for the two methods that write through
    [vars(self)], a store of objects. *)

From Stdlib Require Import String Ascii List Bool Arith NArith Lia Permutation.
Import ListNotations.
Open Scope string_scope.
Open Scope nat_scope.
Set Warnings "-register-all".

(** ** Python values *)

(** What [ast.literal_eval] yields on the derivation grammar: [str],
    [list] and [tuple].  A character stands for one code point. *)
Inductive literal : Type :=
| LStr (s : string)
| LList (xs : list literal)
| LTuple (xs : list literal).

(** The values held by the attributes of a [Derivation]: a literal, a
    [set] or a [dict].  A set lists its elements in iteration order, a
    dict its items in insertion order. *)
Inductive value : Type :=
| VLit (l : literal)
| VSet (xs : list literal)
| VDict (kvs : list (literal * literal)).

(** ** Exceptions and results *)

Inductive exn : Type :=
| SyntaxError (msg : string)
| ValueError (msg : string)
| TypeError (msg : string)
| IndexError (msg : string)
| KeyError (key : literal)
| AttributeError (msg : string)
| OSError (msg : string).

Inductive result (A : Type) : Type :=
| Ok (a : A)
| Raise (e : exn).
Arguments Ok {A} a.
Arguments Raise {A} e.

Definition bind {A B : Type} (r : result A) (k : A -> result B) : result B :=
  match r with
  | Ok a => k a
  | Raise e => Raise e
  end.

Notation "x <- e ;; k" := (bind e (fun x => k))
  (at level 61, e at next level, right associativity).
Notation "' pat <- e ;; k" := (bind e (fun x => match x with pat => k end))
  (at level 61, pat pattern, e at next level, right associativity).

(** A [for] loop whose body may raise: the accumulator is threaded through
    the items in order and the first exception ends the loop. *)
Fixpoint for_each {A S : Type} (body : S -> A -> result S) (items : list A)
    (acc : S) : result S :=
  match items with
  | [] => Ok acc
  | x :: rest => acc' <- body acc x ;; for_each body rest acc'
  end.

(** ** Operations on literals *)

Section SeqOps.
Context {A : Type}.
Variable eqb : A -> A -> bool.

Fixpoint seq_eqb (xs ys : list A) : bool :=
  match xs, ys with
  | [], [] => true
  | x :: xs', y :: ys' => eqb x y && seq_eqb xs' ys'
  | _, _ => false
  end.

Variable lt : A -> A -> result bool.

(** Python orders two sequences by the first position where they differ
    under [==]; a proper prefix is smaller. *)
Fixpoint seq_lt (xs ys : list A) : result bool :=
  match xs, ys with
  | [], [] => Ok false
  | [], _ :: _ => Ok true
  | _ :: _, [] => Ok false
  | x :: xs', y :: ys' => if eqb x y then seq_lt xs' ys' else lt x y
  end.
End SeqOps.

(** [a == b] on literals. *)
Fixpoint literal_eqb (a b : literal) : bool :=
  match a, b with
  | LStr s, LStr t => String.eqb s t
  | LList xs, LList ys => seq_eqb literal_eqb xs ys
  | LTuple xs, LTuple ys => seq_eqb literal_eqb xs ys
  | _, _ => false
  end.

Definition type_name (a : literal) : string :=
  match a with
  | LStr _ => "str"
  | LList _ => "list"
  | LTuple _ => "tuple"
  end.

(** [a < b] on literals; values of different types do not compare. *)
Fixpoint literal_lt (a b : literal) : result bool :=
  match a, b with
  | LStr s, LStr t => Ok (String.ltb s t)
  | LList xs, LList ys => seq_lt literal_eqb literal_lt xs ys
  | LTuple xs, LTuple ys => seq_lt literal_eqb literal_lt xs ys
  | _, _ => Raise (TypeError ("'<' not supported between instances of '"
                              ++ type_name a ++ "' and '" ++ type_name b ++ "'"))
  end.

(** [hash(a)] succeeds: strings, and tuples of hashable values. *)
Fixpoint hashable (a : literal) : bool :=
  match a with
  | LStr _ => true
  | LList _ => false
  | LTuple xs => forallb hashable xs
  end.

Definition check_hashable (a : literal) : result unit :=
  if hashable a then Ok tt
  else Raise (TypeError ("unhashable type: '" ++ type_name a ++ "'")).

(** [iter(a)]: the characters of a string, the elements of a list or
    tuple. *)
Definition iter_literal (a : literal) : list literal :=
  match a with
  | LStr s => map (fun c => LStr (String c EmptyString)) (list_ascii_of_string s)
  | LList xs => xs
  | LTuple xs => xs
  end.

(** [a[i]] for a non-negative index. *)
Definition getitem (a : literal) (i : nat) : result literal :=
  match nth_error (iter_literal a) i with
  | Some x => Ok x
  | None => Raise (IndexError (type_name a ++ " index out of range"))
  end.

(** [sorted(xs)]: a stable sort that uses [<] only.  Each element is put
    before the first element of the sorted rest that is not smaller. *)
Fixpoint sorted_insert (x : literal) (sorted_rest : list literal)
    : result (list literal) :=
  match sorted_rest with
  | [] => Ok [x]
  | y :: rest =>
      b <- literal_lt y x ;;
      if b then (rest' <- sorted_insert x rest ;; Ok (y :: rest'))
      else Ok (x :: y :: rest)
  end.

Fixpoint sorted (xs : list literal) : result (list literal) :=
  match xs with
  | [] => Ok []
  | x :: rest => rest' <- sorted rest ;; sorted_insert x rest'
  end.

(** ** Operations on sets and dicts *)

Definition set_contains (x : literal) (xs : list literal) : bool :=
  existsb (literal_eqb x) xs.

(** [s.add(x)] *)
Definition set_add (xs : list literal) (x : literal) : result (list literal) :=
  _ <- check_hashable x ;;
  Ok (if set_contains x xs then xs else (xs ++ [x])%list).

(** [set(iterable)] *)
Definition set_of (items : list literal) : result (list literal) :=
  for_each set_add items [].

Fixpoint dict_get (k : literal) (kvs : list (literal * literal)) : option literal :=
  match kvs with
  | [] => None
  | (k', v) :: rest => if literal_eqb k' k then Some v else dict_get k rest
  end.

(** [d[k]] *)
Definition dict_getitem (kvs : list (literal * literal)) (k : literal)
    : result literal :=
  _ <- check_hashable k ;;
  match dict_get k kvs with
  | Some v => Ok v
  | None => Raise (KeyError k)
  end.

Fixpoint dict_put (k v : literal) (kvs : list (literal * literal))
    : list (literal * literal) :=
  match kvs with
  | [] => [(k, v)]
  | (k', v') :: rest =>
      if literal_eqb k' k then (k', v) :: rest else (k', v') :: dict_put k v rest
  end.

(** [d[k] = v]: a key already present keeps its place and takes the new
    value. *)
Definition dict_setitem (kvs : list (literal * literal)) (k v : literal)
    : result (list (literal * literal)) :=
  _ <- check_hashable k ;;
  Ok (dict_put k v kvs).

(** The error of unpacking an iterable whose length is not [n]. *)
Definition unpack_error (n : nat) (items : list literal) : exn :=
  if length items <? n then ValueError "not enough values to unpack"
  else ValueError "too many values to unpack".

(** [dict(iterable)]: every element must be a sequence of length two. *)
Definition dict_of (items : list literal) : result (list (literal * literal)) :=
  for_each
    (fun kvs item =>
       match iter_literal item with
       | [k; v] => dict_setitem kvs k v
       | _ => Raise (ValueError "dictionary update sequence element has the wrong length; 2 is required")
       end)
    items [].

Definition dict_keys (kvs : list (literal * literal)) : list literal := map fst kvs.

(** [a == b] on attribute values. *)
Definition value_eqb (a b : value) : bool :=
  match a, b with
  | VLit x, VLit y => literal_eqb x y
  | VSet xs, VSet ys =>
      (length xs =? length ys) && forallb (fun x => set_contains x ys) xs
  | VDict kvs, VDict kvs' =>
      (length kvs =? length kvs')
      && forallb (fun kv => match dict_get (fst kv) kvs' with
                            | Some v' => literal_eqb (snd kv) v'
                            | None => false
                            end) kvs
  | _, _ => false
  end.

(** ** [repr] *)

(** [repr] of a literal, without the escaping Python applies to quotes and
    unprintable characters inside a string. *)
Fixpoint repr_literal (a : literal) : string :=
  match a with
  | LStr s => "'" ++ s ++ "'"
  | LList xs => "[" ++ String.concat ", " (map repr_literal xs) ++ "]"
  | LTuple xs =>
      match xs with
      | [x] => "(" ++ repr_literal x ++ ",)"
      | _ => "(" ++ String.concat ", " (map repr_literal xs) ++ ")"
      end
  end.

(** [repr(e)] of an exception: the class name and the argument. *)
Definition repr_exn (e : exn) : string :=
  match e with
  | SyntaxError msg => "SyntaxError('" ++ msg ++ "')"
  | ValueError msg => "ValueError('" ++ msg ++ "')"
  | TypeError msg => "TypeError('" ++ msg ++ "')"
  | IndexError msg => "IndexError('" ++ msg ++ "')"
  | KeyError key => "KeyError(" ++ repr_literal key ++ ")"
  | AttributeError msg => "AttributeError('" ++ msg ++ "')"
  | OSError msg => "OSError('" ++ msg ++ "')"
  end.

(** ** Strings and [os.path] (posix) *)

(** [s[:-1]] *)
Fixpoint drop_last (s : string) : string :=
  match s with
  | EmptyString => EmptyString
  | String c EmptyString => EmptyString
  | String c rest => String c (drop_last rest)
  end.

(** [s[n:]] *)
Fixpoint drop (n : nat) (s : string) : string :=
  match n, s with
  | O, _ => s
  | S _, EmptyString => EmptyString
  | S n', String _ rest => drop n' rest
  end.

Fixpoint ends_with_slash (s : string) : bool :=
  match s with
  | EmptyString => false
  | String c EmptyString => Ascii.eqb c "/"
  | String _ rest => ends_with_slash rest
  end.

(** [os.path.isabs] *)
Definition isabs (p : string) : bool := String.prefix "/" p.

(** [os.path.join] of two components. *)
Definition path_join (a b : string) : string :=
  if String.prefix "/" b then b
  else if String.eqb a EmptyString || ends_with_slash a then a ++ b
  else a ++ "/" ++ b.

(** ** A literal evaluator for the derivation grammar

    [ast.literal_eval] belongs to the Python library.  The functions of
    [Derivation] below take the evaluator as a parameter; the worked
    examples use this one.  It reads double-quoted strings with the
    escapes backslash, quote, apostrophe, n, t and r, bracketed lists,
    parenthesised tuples and a bare top-level tuple, with no blanks between
    tokens.  On such a text it yields what Python yields; any other text
    (numbers, other quoting styles, blanks, ...) is reported as a
    [SyntaxError] although Python accepts some of them. *)

Inductive bracket : Type := Square | Round.

Inductive lex_state : Type :=
| Want                        (* a value or a closing bracket may come *)
| Have                        (* a value is complete: comma or closing bracket *)
| InString (acc : list ascii) (* inside a string; [acc] is reversed *)
| InEscape (acc : list ascii) (* right after a backslash inside a string *).

(** The evaluator state: the items of the sequence being read (most recent
    first), whether a comma was seen in it, and for every open bracket the
    items and comma flag of the sequence it interrupted. *)
Record eval_state : Type := EvalState {
  mode : lex_state;
  items : list literal;
  comma : bool;
  open_brackets : list (bracket * list literal * bool)
}.

Definition dquote : ascii := ascii_of_nat 34.
Definition backslash : ascii := ascii_of_nat 92.

Definition close_value (b : bracket) (its : list literal) (cm : bool) : literal :=
  match b with
  | Square => LList (rev its)
  | Round =>
      if cm then LTuple (rev its)
      else match its with
           | [x] => x
           | _ => LTuple (rev its)
           end
  end.

Definition bracket_eqb (a b : bracket) : bool :=
  match a, b with
  | Square, Square | Round, Round => true
  | _, _ => false
  end.

Definition eval_close (b : bracket) (st : eval_state) : result eval_state :=
  match open_brackets st with
  | [] => Raise (SyntaxError "unmatched closing bracket")
  | (b', its, cm) :: outer =>
      if bracket_eqb b b'
      then Ok (EvalState Have (close_value b (items st) (comma st) :: its) cm outer)
      else Raise (SyntaxError "closing bracket does not match the opening one")
  end.

Definition eval_open (b : bracket) (st : eval_state) : eval_state :=
  EvalState Want [] false ((b, items st, comma st) :: open_brackets st).

Definition unescape (c : ascii) : option ascii :=
  if Ascii.eqb c backslash then Some backslash
  else if Ascii.eqb c dquote then Some dquote
  else if Ascii.eqb c "'" then Some "'"%char
  else if Ascii.eqb c "n" then Some (ascii_of_nat 10)
  else if Ascii.eqb c "t" then Some (ascii_of_nat 9)
  else if Ascii.eqb c "r" then Some (ascii_of_nat 13)
  else None.

Definition eval_step (c : ascii) (st : eval_state) : result eval_state :=
  match mode st with
  | Want =>
      if Ascii.eqb c dquote
      then Ok (EvalState (InString []) (items st) (comma st) (open_brackets st))
      else if Ascii.eqb c "[" then Ok (eval_open Square st)
      else if Ascii.eqb c "(" then Ok (eval_open Round st)
      else if Ascii.eqb c "]" then eval_close Square st
      else if Ascii.eqb c ")" then eval_close Round st
      else Raise (SyntaxError "invalid syntax")
  | Have =>
      if Ascii.eqb c ","
      then Ok (EvalState Want (items st) true (open_brackets st))
      else if Ascii.eqb c "]" then eval_close Square st
      else if Ascii.eqb c ")" then eval_close Round st
      else Raise (SyntaxError "invalid syntax")
  | InString acc =>
      if Ascii.eqb c dquote
      then Ok (EvalState Have (LStr (string_of_list_ascii (rev acc)) :: items st)
                         (comma st) (open_brackets st))
      else if Ascii.eqb c backslash
      then Ok (EvalState (InEscape acc) (items st) (comma st) (open_brackets st))
      else if Ascii.eqb c (ascii_of_nat 10) || Ascii.eqb c (ascii_of_nat 13)
              || Ascii.eqb c (ascii_of_nat 0)
      then Raise (SyntaxError "unterminated string literal")
      else Ok (EvalState (InString (c :: acc)) (items st) (comma st) (open_brackets st))
  | InEscape acc =>
      match unescape c with
      | Some c' =>
          Ok (EvalState (InString (c' :: acc)) (items st) (comma st) (open_brackets st))
      | None => Raise (SyntaxError "escape sequence outside the modelled grammar")
      end
  end.

Definition eval_finish (st : eval_state) : result literal :=
  match mode st, open_brackets st with
  | InString _, _ => Raise (SyntaxError "unterminated string literal")
  | InEscape _, _ => Raise (SyntaxError "unterminated string literal")
  | _, _ :: _ => Raise (SyntaxError "bracket was never closed")
  | Have, [] =>
      if comma st then Ok (LTuple (rev (items st)))
      else match items st with
           | [x] => Ok x
           | _ => Raise (SyntaxError "invalid syntax")
           end
  | Want, [] =>
      if comma st then Ok (LTuple (rev (items st)))
      else Raise (SyntaxError "invalid syntax")
  end.

Fixpoint eval_run (text : string) (st : eval_state) : result literal :=
  match text with
  | EmptyString => eval_finish st
  | String c rest => st' <- eval_step c st ;; eval_run rest st'
  end.

Definition grammar_literal_eval (text : string) : result literal :=
  eval_run text (EvalState Want [] false []).

(** Example texts are written with an apostrophe where the file has a
    double quote; [dq] puts the double quotes back. *)
Fixpoint dq (s : string) : string :=
  match s with
  | EmptyString => EmptyString
  | String c rest => String (if Ascii.eqb c "'" then dquote else c) (dq rest)
  end.

(** ** The class [Derivation] *)

(** The instance dict of a [Derivation]: [__init__] assigns these seven
    attributes, in this order, and nothing else.  Its [path] argument is
    assigned to no attribute. *)
Record Derivation : Type := {
  outputs : value;
  input_derivations : value;
  input_files : value;
  system : value;
  builder : value;
  builder_args : value;
  environment : value
}.

Definition Derivation_init (path : string)
    (outputs input_derivations input_files system builder builder_args
       environment : value) : Derivation :=
  {| outputs := outputs;
     input_derivations := input_derivations;
     input_files := input_files;
     system := system;
     builder := builder;
     builder_args := builder_args;
     environment := environment |}.

(** [vars(self)], read: the attribute names with their current values. *)
Definition vars (self : Derivation) : list (string * value) :=
  [("outputs", outputs self);
   ("input_derivations", input_derivations self);
   ("input_files", input_files self);
   ("system", system self);
   ("builder", builder self);
   ("builder_args", builder_args self);
   ("environment", environment self)].

(** [vars(self)[key] = v], written: [vars] returns the instance dict
    itself, so the assignment changes the attribute.  The source assigns
    only keys that are attribute names; another key changes none of the
    seven attributes. *)
Definition vars_setitem (key : string) (v : value) (self : Derivation) : Derivation :=
  if String.eqb key "outputs" then
    Build_Derivation v (input_derivations self) (input_files self)
      (system self) (builder self) (builder_args self) (environment self)
  else if String.eqb key "input_derivations" then
    Build_Derivation (outputs self) v (input_files self)
      (system self) (builder self) (builder_args self) (environment self)
  else if String.eqb key "input_files" then
    Build_Derivation (outputs self) (input_derivations self) v
      (system self) (builder self) (builder_args self) (environment self)
  else if String.eqb key "system" then
    Build_Derivation (outputs self) (input_derivations self)
      (input_files self) v (builder self) (builder_args self) (environment self)
  else if String.eqb key "builder" then
    Build_Derivation (outputs self) (input_derivations self)
      (input_files self) (system self) v (builder_args self) (environment self)
  else if String.eqb key "builder_args" then
    Build_Derivation (outputs self) (input_derivations self)
      (input_files self) (system self) (builder self) v (environment self)
  else if String.eqb key "environment" then
    Build_Derivation (outputs self) (input_derivations self)
      (input_files self) (system self) (builder self) (builder_args self) v
  else self.

Fixpoint assoc {V : Type} (key : string) (kvs : list (string * V)) : option V :=
  match kvs with
  | [] => None
  | (k, v) :: rest => if String.eqb k key then Some v else assoc key rest
  end.

(** [a == b] on two dicts keyed by attribute name. *)
Definition attrs_eqb (a b : list (string * value)) : bool :=
  (length a =? length b)
  && forallb (fun kv => match assoc (fst kv) b with
                        | Some v' => value_eqb (snd kv) v'
                        | None => false
                        end) a.

(** [__eq__] *)
Definition Derivation_eq (self other : Derivation) : bool :=
  attrs_eqb (vars self) (vars other).

(** [iter(v)] on an attribute value; iterating a dict yields its keys. *)
Definition value_iter (v : value) : list literal :=
  match v with
  | VLit l => iter_literal l
  | VSet xs => xs
  | VDict kvs => dict_keys kvs
  end.

Definition value_type_name (v : value) : string :=
  match v with
  | VLit l => type_name l
  | VSet _ => "set"
  | VDict _ => "dict"
  end.

(** [v[k]] for a key that is no integer: only a dict answers. *)
Definition value_subscript (v : value) (k : literal) : result literal :=
  match v with
  | VDict kvs => dict_getitem kvs k
  | _ => Raise (TypeError ("'" ++ value_type_name v ++ "' object is not subscriptable by a key"))
  end.

(** [v.items()] and [v.keys()] *)
Definition value_items (v : value) : result (list (literal * literal)) :=
  match v with
  | VDict kvs => Ok kvs
  | _ => Raise (AttributeError ("'" ++ value_type_name v ++ "' object has no attribute 'items'"))
  end.

Definition value_keys (v : value) : result (list literal) :=
  match v with
  | VDict kvs => Ok (dict_keys kvs)
  | _ => Raise (AttributeError ("'" ++ value_type_name v ++ "' object has no attribute 'keys'"))
  end.

(** [name] *)
Definition name (self : Derivation) : result literal :=
  value_subscript (environment self) (LStr "name").

(** [output_names] *)
Definition output_names (self : Derivation) : result value :=
  keys <- value_keys (outputs self) ;;
  names <- set_of keys ;;
  Ok (VSet names).

(** The dict comprehension of [parse_derivation]: every item unpacks into
    [name, path, hashtype, hash_]; the value is the bare path when
    [hashtype] is the empty string and the triple otherwise. *)
Definition outputs_of (items : list literal) : result (list (literal * literal)) :=
  for_each
    (fun kvs item =>
       match iter_literal item with
       | [name; path; hashtype; hash_] =>
           dict_setitem kvs name
             (if literal_eqb hashtype (LStr EmptyString) then path
              else LTuple [path; hashtype; hash_])
       | fields => Raise (unpack_error 4 fields)
       end)
    items [].

Section Environment.

(** [ast.literal_eval], [os.environ] and the file system ([open] in mode
    rb, [read], [decode]) are what the class is run with. *)
Variable literal_eval : string -> result literal.
Variable environ : string -> option string.
Variable read_file : string -> result string.

(** [parse_derivation] *)
Definition parse_derivation (derivation_string derivation_path : string)
    : result Derivation :=
  let derivation_string :=
    if String.prefix "Derive([" derivation_string
    then drop_last (drop 7 derivation_string)
    else derivation_string in
  derivation_list <- literal_eval derivation_string ;;
  item0 <- getitem derivation_list 0 ;;
  outputs <- outputs_of (iter_literal item0) ;;
  item1 <- getitem derivation_list 1 ;;
  input_derivations <- dict_of (iter_literal item1) ;;
  item2 <- getitem derivation_list 2 ;;
  input_files <- set_of (iter_literal item2) ;;
  system <- getitem derivation_list 3 ;;
  builder <- getitem derivation_list 4 ;;
  builder_args <- getitem derivation_list 5 ;;
  item6 <- getitem derivation_list 6 ;;
  environment <- dict_of (iter_literal item6) ;;
  Ok (Derivation_init derivation_path (VDict outputs) (VDict input_derivations)
        (VSet input_files) (VLit system) (VLit builder) (VLit builder_args)
        (VDict environment)).

(** The path that [parse_derivation_file] opens. *)
Definition resolve_path (derivation_path : string) : string :=
  if negb (isabs derivation_path) then
    match environ "NIX_STORE" with
    | Some nix_store => path_join nix_store derivation_path
    | None => derivation_path
    end
  else derivation_path.

(** [parse_derivation_file]: the file is opened and read outside the
    [try]; every exception of [parse_derivation] is replaced by one
    [ValueError]. *)
Definition parse_derivation_file (derivation_path : string) : result Derivation :=
  let derivation_path := resolve_path derivation_path in
  source <- read_file derivation_path ;;
  match parse_derivation source derivation_path with
  | Ok d => Ok d
  | Raise e =>
      Raise (ValueError ("Couldn't parse derivation at path " ++ derivation_path
                         ++ ": " ++ repr_exn e))
  end.

(** The inner loop of [input_paths] over the requested output names. *)
Definition add_outputs (input_deriv : Derivation) (names : list literal)
    (paths : list literal) : result (list literal) :=
  for_each
    (fun paths output =>
       v <- value_subscript (outputs input_deriv) output ;;
       set_add paths v)
    names paths.

(** The body of the outer loop of [input_paths].  [os.path.isabs] rejects
    a path that is no string. *)
Definition add_input_derivation (paths : list literal)
    (entry : literal * literal) : result (list literal) :=
  match fst entry with
  | LStr deriv_path =>
      input_deriv <- parse_derivation_file deriv_path ;;
      add_outputs input_deriv (iter_literal (snd entry)) paths
  | other =>
      Raise (TypeError ("expected str, bytes or os.PathLike object, not "
                        ++ type_name other))
  end.

(** [input_paths] *)
Definition input_paths (self : Derivation) : result value :=
  paths <- set_of (value_iter (input_files self)) ;;
  entries <- value_items (input_derivations self) ;;
  paths <- for_each add_input_derivation entries paths ;;
  Ok (VSet paths).

End Environment.

(** ** Objects in a store

    [to_dict] and [diff] start from [vars(self)], which is the instance
    dict and no copy of it: what they assign to the dict, they assign to
    the object.  A store maps every reference to the current attributes of
    the [Derivation] it names; two arguments of a method may be the same
    reference. *)

Definition ref : Type := nat.
Definition store : Type := ref -> Derivation.

Definition store_set (st : store) (r : ref) (d : Derivation) : store :=
  fun r' => if r' =? r then d else st r'.

(** A method that reads and writes the store and may raise; what was
    written before an exception stays written. *)
Definition method (A : Type) : Type := store -> store * result A.

Definition mret {A : Type} (a : A) : method A := fun st => (st, Ok a).

Definition mbind {A B : Type} (m : method A) (k : A -> method B) : method B :=
  fun st =>
    match m st with
    | (st', Ok a) => k a st'
    | (st', Raise e) => (st', Raise e)
    end.

Definition lift {A : Type} (r : result A) : method A := fun st => (st, r).
Definition getattr {A : Type} (r : ref) (field : Derivation -> A) : method A :=
  fun st => (st, Ok (field (st r))).
Definition setitem (r : ref) (key : string) (v : value) : method unit :=
  fun st => (store_set st r (vars_setitem key v (st r)), Ok tt).

Notation "x <~ e ;; k" := (mbind e (fun x => k))
  (at level 61, e at next level, right associativity).

(** [isinstance(val, (set, tuple))] and [list(val)] *)
Definition is_set_or_tuple (v : value) : bool :=
  match v with
  | VSet _ => true
  | VLit (LTuple _) => true
  | _ => false
  end.

Definition list_of (v : value) : value := VLit (LList (value_iter v)).

(** The loop of [to_dict] over the items of the instance dict. *)
Fixpoint to_dict_loop (self : ref) (keys : list string) : method unit :=
  match keys with
  | [] => mret tt
  | key :: rest =>
      res <~ getattr self vars ;;
      _ <~ match assoc key res with
           | Some val =>
               if is_set_or_tuple val then setitem self key (list_of val)
               else mret tt
           | None => mret tt
           end ;;
      to_dict_loop self rest
  end.

(** [to_dict]: the result is the instance dict, given here by its content
    when the method returns. *)
Definition to_dict (self : ref) : method (list (string * value)) :=
  res <~ getattr self vars ;;
  _ <~ to_dict_loop self (map fst res) ;;
  getattr self vars.

(** Modelled from the library: [datadiff.diff] of two dicts, as the list
    of the keys on which they disagree with the value on each side ([None]
    for a key the side lacks).  An empty list is a report of no
    difference. *)
Definition DataDiff : Type := list (string * option value * option value).

Definition datadiff_diff (a b : list (string * value)) : DataDiff :=
  (flat_map (fun kv =>
               match assoc (fst kv) b with
               | Some v' =>
                   if value_eqb (snd kv) v' then []
                   else [(fst kv, Some (snd kv), Some v')]
               | None => [(fst kv, Some (snd kv), None)]
               end) a
   ++ flat_map (fun kv =>
                  match assoc (fst kv) a with
                  | Some _ => []
                  | None => [(fst kv, None, Some (snd kv))]
                  end) b)%list.

(** One of the two assignments of [diff]:
    [d["outputs"] = list(sorted(d["outputs"].keys()))]. *)
Definition normalize_outputs (r : ref) : method unit :=
  outs <~ getattr r outputs ;;
  keys <~ lift (value_keys outs) ;;
  names <~ lift (sorted keys) ;;
  setitem r "outputs" (VLit (LList names)).

(** [diff] *)
Definition diff (self other : ref) : method DataDiff :=
  _ <~ normalize_outputs self ;;
  _ <~ normalize_outputs other ;;
  selfdict <~ getattr self vars ;;
  otherdict <~ getattr other vars ;;
  mret (datadiff_diff selfdict otherdict).

(** What [display] hands to an encoder: the whole instance dict or one
    selected value. *)
Inductive printable : Type :=
| Whole (attrs : list (string * value))
| Selected (v : value).

Section Display.

(** [json.dumps] (with its [indent]), [yaml.dump] and [rtyaml.dump]. *)
Variable json_dumps : option nat -> printable -> result string.
Variable yaml_dump : printable -> result string.
Variable rtyaml_dump : printable -> result string.

(** The selection of [display]. *)
Definition select (self : ref) (selfdict : list (string * value))
    (attribute env_var : option string) : method printable :=
  match attribute, env_var with
  | None, None => mret (Whole selfdict)
  | Some a, _ =>
      match assoc a selfdict with
      | Some v => mret (Selected v)
      | None => lift (Raise (KeyError (LStr a)))
      end
  | None, Some e =>
      env <~ getattr self environment ;;
      v <~ lift (value_subscript env (LStr e)) ;;
      mret (Selected (VLit v))
  end.

(** [display] *)
Definition display (self : ref) (attribute env_var : option string)
    (format : string) (pretty : bool) : method string :=
  selfdict <~ to_dict self ;;
  to_print <~ select self selfdict attribute env_var ;;
  match to_print, pretty with
  | Selected (VLit (LStr s)), true => mret s
  | _, _ =>
      if String.eqb format "json" then
        lift (json_dumps (if pretty then Some 2 else None) to_print)
      else if String.eqb format "yaml" then
        lift (if pretty then rtyaml_dump to_print else yaml_dump to_print)
      else lift (Raise (ValueError ("Invalid format: " ++ format)))
  end.

End Display.

(** ** Representation invariant and worked examples *)

(** An association list stands for a dict when its keys are pairwise
    different under [==]. *)
Fixpoint distinct (xs : list literal) : bool :=
  match xs with
  | [] => true
  | x :: rest => negb (set_contains x rest) && distinct rest
  end.

Definition value_ok (v : value) : bool :=
  match v with
  | VDict kvs => distinct (dict_keys kvs)
  | _ => true
  end.

Definition Derivation_ok (d : Derivation) : bool :=
  forallb (fun kv => value_ok (snd kv)) (vars d).

Definition is_str (a : literal) : bool :=
  match a with
  | LStr _ => true
  | _ => false
  end.

Definition str_of (a : literal) : string :=
  match a with
  | LStr s => s
  | _ => EmptyString
  end.

(** Insertion sort on strings, the image of [sorted] on a list of [str]. *)
Fixpoint str_insert (x : string) (sorted_rest : list string) : list string :=
  match sorted_rest with
  | [] => [x]
  | y :: rest => if String.ltb y x then y :: str_insert x rest else x :: y :: rest
  end.

Fixpoint str_sort (xs : list string) : list string :=
  match xs with
  | [] => []
  | x :: rest => str_insert x (str_sort rest)
  end.

(** The end-to-end example of the specification. *)
Definition example_text : string :=
  dq "Derive([('out','/store/abc-foo','','')],[],['/store/src-bar'],'x86_64-linux','/bin/sh',['-c','echo hi'],[('name','foo')])".

(** The same 7-tuple without the wrapper. *)
Definition example_body : string :=
  dq "[('out','/store/abc-foo','','')],[],['/store/src-bar'],'x86_64-linux','/bin/sh',['-c','echo hi'],[('name','foo')]".

Definition example_derivation : Derivation :=
  {| outputs := VDict [(LStr "out", LStr "/store/abc-foo")];
     input_derivations := VDict [];
     input_files := VSet [LStr "/store/src-bar"];
     system := VLit (LStr "x86_64-linux");
     builder := VLit (LStr "/bin/sh");
     builder_args := VLit (LList [LStr "-c"; LStr "echo hi"]);
     environment := VDict [(LStr "name", LStr "foo")] |}.

(** A file system with two derivations: [/store/e.drv] has a fixed-output
    output, and [/store/d.drv] takes the output [out] of [/store/e.drv] as
    an input. *)
Definition fixed_output_text : string :=
  dq "Derive([('out','/store/e-out','sha256','abcd')],[],[],'x86_64-linux','/bin/sh',[],[('name','e')])".

Definition dependent_text : string :=
  dq "Derive([('out','/store/d-out','','')],[('/store/e.drv',['out'])],[],'x86_64-linux','/bin/sh',[],[('name','d')])".

Definition example_files (path : string) : result string :=
  if String.eqb path "/store/abc-foo.drv" then Ok example_text
  else if String.eqb path "/store/e.drv" then Ok fixed_output_text
  else if String.eqb path "/store/d.drv" then Ok dependent_text
  else if String.eqb path "/store/broken.drv" then Ok (dq "Derive([('out','/store/x','',''")
  else Raise (OSError ("No such file or directory: " ++ path)).

Definition no_environ (_ : string) : option string := None.

Definition dependent_derivation : Derivation :=
  {| outputs := VDict [(LStr "out", LStr "/store/d-out")];
     input_derivations := VDict [(LStr "/store/e.drv", LList [LStr "out"])];
     input_files := VSet [];
     system := VLit (LStr "x86_64-linux");
     builder := VLit (LStr "/bin/sh");
     builder_args := VLit (LList []);
     environment := VDict [(LStr "name", LStr "d")] |}.

(** A derivation with one input derivation, of which it takes one output. *)
Definition consumer_of (deriv_path output : string) : Derivation :=
  {| outputs := VDict [(LStr "out", LStr "/store/c-out")];
     input_derivations := VDict [(LStr deriv_path, LList [LStr output])];
     input_files := VSet [];
     system := VLit (LStr "x86_64-linux");
     builder := VLit (LStr "/bin/sh");
     builder_args := VLit (LList []);
     environment := VDict [(LStr "name", LStr "c")] |}.

(** What [/store/e.drv] parses to. *)
Definition fixed_output_derivation : Derivation :=
  {| outputs :=
       VDict [(LStr "out", LTuple [LStr "/store/e-out"; LStr "sha256"; LStr "abcd"])];
     input_derivations := VDict [];
     input_files := VSet [];
     system := VLit (LStr "x86_64-linux");
     builder := VLit (LStr "/bin/sh");
     builder_args := VLit (LList []);
     environment := VDict [(LStr "name", LStr "e")] |}.

(** The name of the class of an exception. *)
Definition exn_class (e : exn) : string :=
  match e with
  | SyntaxError _ => "SyntaxError"
  | ValueError _ => "ValueError"
  | TypeError _ => "TypeError"
  | IndexError _ => "IndexError"
  | KeyError _ => "KeyError"
  | AttributeError _ => "AttributeError"
  | OSError _ => "OSError"
  end.

(** Encoders for runs of [display] that reach none. *)
Definition no_encoder (_ : printable) : result string :=
  Raise (TypeError "no encoder").
Definition no_json (_ : option nat) (_ : printable) : result string :=
  Raise (TypeError "no encoder").

(** A store in which every reference names an object with the attributes
    of the example. *)
Definition example_store : store := fun _ => example_derivation.

(** Two objects that differ in the paths and hash information of their
    outputs only; the outputs are listed in different orders. *)
Definition left_outputs : list (literal * literal) :=
  [(LStr "out", LStr "/store/abc-foo"); (LStr "dev", LStr "/store/abc-foo-dev")].

Definition right_outputs : list (literal * literal) :=
  [(LStr "dev", LTuple [LStr "/store/xyz-foo-dev"; LStr "sha256"; LStr "ff"]);
   (LStr "out", LStr "/store/xyz-foo")].

Definition two_objects : store :=
  fun r =>
    if r =? 0 then vars_setitem "outputs" (VDict left_outputs) example_derivation
    else vars_setitem "outputs" (VDict right_outputs) example_derivation.

(** The first two steps of [display]: [to_dict], then the selection. *)
Definition selection (self : ref) (attribute env_var : option string)
    : method printable :=
  selfdict <~ to_dict self ;;
  select self selfdict attribute env_var.

(** ** Notions used by the further properties *)

(** The first step of [parse_derivation]: a text that starts with
    Derive([ loses its first seven characters and its last one. *)
Definition strip_wrapper (derivation_string : string) : string :=
  if String.prefix "Derive([" derivation_string
  then drop_last (drop 7 derivation_string)
  else derivation_string.

(** The rest of [parse_derivation], from the evaluated literal on. *)
Definition derivation_of_literal (derivation_list : literal) : result Derivation :=
  parse_derivation (fun _ => Ok derivation_list) EmptyString EmptyString.

(** A list stands for a Python set, and an association list for a Python
    dict, when its elements (keys) are hashable and pairwise different. *)
Definition value_genuine (v : value) : bool :=
  match v with
  | VLit _ => true
  | VSet xs => distinct xs && forallb hashable xs
  | VDict kvs => distinct (dict_keys kvs) && forallb hashable (dict_keys kvs)
  end.

Definition Derivation_genuine (d : Derivation) : bool :=
  forallb (fun kv => value_genuine (snd kv)) (vars d).

(** Two values that list the same elements, or the same items, in
    different orders. *)
Inductive reordered : value -> value -> Prop :=
| reordered_lit (l : literal) : reordered (VLit l) (VLit l)
| reordered_set (xs ys : list literal) :
    Permutation xs ys -> reordered (VSet xs) (VSet ys)
| reordered_dict (kvs kvs' : list (literal * literal)) :
    Permutation kvs kvs' -> reordered (VDict kvs) (VDict kvs').

(** The path [p] is the value that the derivation file [deriv_path] of an
    entry gives to one of the output names the entry asks for. *)
Definition resolved_from (literal_eval : string -> result literal)
    (environ : string -> option string) (read_file : string -> result string)
    (entries : list (literal * literal)) (p : literal) : Prop :=
  exists deriv_path names input_deriv output,
    In (LStr deriv_path, names) entries
    /\ In output (iter_literal names)
    /\ parse_derivation_file literal_eval environ read_file deriv_path
       = Ok input_deriv
    /\ value_subscript (outputs input_deriv) output = Ok p.

(** What [to_dict] leaves in the place of one attribute value. *)
Definition listify (v : value) : value :=
  if is_set_or_tuple v then list_of v else v.

Definition listify_all (d : Derivation) : Derivation :=
  Build_Derivation (listify (outputs d)) (listify (input_derivations d))
    (listify (input_files d)) (listify (system d)) (listify (builder d))
    (listify (builder_args d)) (listify (environment d)).

(** One round of the loop of [to_dict], on the attributes alone. *)
Definition to_dict_step (d : Derivation) (key : string) : Derivation :=
  match assoc key (vars d) with
  | Some val => if is_set_or_tuple val then vars_setitem key (list_of val) d else d
  | None => d
  end.

Definition attribute_names : list string :=
  ["outputs"; "input_derivations"; "input_files"; "system"; "builder";
   "builder_args"; "environment"].

(** Two objects in a store: reference 0 names the first, every other
    reference the second. *)
Definition two_object_store (first second : Derivation) : store :=
  fun r => if r =? 0 then first else second.

(** Texts with a repeated output name and a repeated environment
    variable. *)
Definition repeated_text : string :=
  dq "Derive([('out','/store/first','',''),('out','/store/second','sha256','ff')],[],[],'x86_64-linux','/bin/sh',[],[('name','a'),('name','b')])".

Definition repeated_derivation : Derivation :=
  {| outputs :=
       VDict [(LStr "out", LTuple [LStr "/store/second"; LStr "sha256"; LStr "ff"])];
     input_derivations := VDict [];
     input_files := VSet [];
     system := VLit (LStr "x86_64-linux");
     builder := VLit (LStr "/bin/sh");
     builder_args := VLit (LList []);
     environment := VDict [(LStr "name", LStr "b")] |}.

(** A text in which a repeated output name and a repeated environment
    variable are followed by another entry. *)
Definition shadowed_text : string :=
  dq "Derive([('out','/store/first','',''),('out','/store/second','sha256','ff'),('dev','/store/dev','','')],[],[],'x86_64-linux','/bin/sh',[],[('name','a'),('name','b'),('TERM','dumb')])".

Definition shadowed_derivation : Derivation :=
  {| outputs :=
       VDict [(LStr "out", LTuple [LStr "/store/second"; LStr "sha256"; LStr "ff"]);
              (LStr "dev", LStr "/store/dev")];
     input_derivations := VDict [];
     input_files := VSet [];
     system := VLit (LStr "x86_64-linux");
     builder := VLit (LStr "/bin/sh");
     builder_args := VLit (LList []);
     environment := VDict [(LStr "name", LStr "b"); (LStr "TERM", LStr "dumb")] |}.

(** A text with an eighth element. *)
Definition long_text : string :=
  dq "Derive([('out','/store/abc-foo','','')],[],['/store/src-bar'],'x86_64-linux','/bin/sh',['-c','echo hi'],[('name','foo')],'more')".

(** ** The command line ([cli.py]) *)

Module cli.

(** The namespace that [get_args] returns.  [derivation_path],
    [attribute], [env_var], [format] and [pretty] belong to the command
    show, [first] and [second] to diff and sdiff. *)
Record namespace : Type := {
  command : string;
  derivation_path : string;
  attribute : option string;
  env_var : option string;
  format : string;
  pretty : bool;
  first : string;
  second : string
}.

(** The options of show, as the argument parser hands them to their
    actions, in the order of the command line. *)
Inductive show_option : Type :=
| OptJson
| OptYaml
| OptPretty
| OptAttribute (a : string)
| OptEnvVar (e : string).

(** The namespace of show before any option: [set_defaults] makes string
    the format, [pretty] is [False], the two selectors are [None]. *)
Definition show_defaults (path : string) : namespace :=
  {| command := "show"; derivation_path := path; attribute := None;
     env_var := None; format := "string"; pretty := false;
     first := EmptyString; second := EmptyString |}.

(** The action of one option: store_const on [format] for the two format
    flags, store_true on [pretty], store for the two selectors. *)
Definition apply_option (ns : namespace) (opt : show_option) : namespace :=
  match opt with
  | OptJson =>
      {| command := command ns; derivation_path := derivation_path ns;
         attribute := attribute ns; env_var := env_var ns; format := "json";
         pretty := pretty ns; first := first ns; second := second ns |}
  | OptYaml =>
      {| command := command ns; derivation_path := derivation_path ns;
         attribute := attribute ns; env_var := env_var ns; format := "yaml";
         pretty := pretty ns; first := first ns; second := second ns |}
  | OptPretty =>
      {| command := command ns; derivation_path := derivation_path ns;
         attribute := attribute ns; env_var := env_var ns; format := format ns;
         pretty := true; first := first ns; second := second ns |}
  | OptAttribute a =>
      {| command := command ns; derivation_path := derivation_path ns;
         attribute := Some a; env_var := env_var ns; format := format ns;
         pretty := pretty ns; first := first ns; second := second ns |}
  | OptEnvVar e =>
      {| command := command ns; derivation_path := derivation_path ns;
         attribute := attribute ns; env_var := Some e; format := format ns;
         pretty := pretty ns; first := first ns; second := second ns |}
  end.

(** [get_args] for the command show. *)
Definition show_namespace (path : string) (opts : list show_option) : namespace :=
  fold_left apply_option opts (show_defaults path).

(** [get_args] for the commands diff and sdiff. *)
Definition diff_namespace (cmd first second : string) : namespace :=
  {| command := cmd; derivation_path := EmptyString; attribute := None;
     env_var := None; format := EmptyString; pretty := false;
     first := first; second := second |}.

Definition is_format_flag (opt : show_option) : bool :=
  match opt with
  | OptJson | OptYaml => true
  | _ => false
  end.

Definition is_pretty_flag (opt : show_option) : bool :=
  match opt with
  | OptPretty => true
  | _ => false
  end.

(** How a run of [main] ends: it has printed lines, an exception leaves
    it, or [sys.exit] ends it with a message. *)
Inductive outcome : Type :=
| Printed (lines : list string)
| Raised (e : exn)
| Exited (msg : string).

Section Main.

Variable literal_eval : string -> result literal.
Variable environ : string -> option string.
Variable read_file : string -> result string.
Variable json_dumps : option nat -> printable -> result string.
Variable yaml_dump : printable -> result string.
Variable rtyaml_dump : printable -> result string.

(** [str] of a [datadiff] report, and [diff_derivations] of the module
    [derivation_diff], with the two sides of a difference given by their
    printed form. *)
Variable datadiff_str : DataDiff -> string.
Variable diff_derivations :
  Derivation -> Derivation -> result (string + string * string * string).

Definition finish (r : result (list string)) : outcome :=
  match r with
  | Ok lines => Printed lines
  | Raise e => Raised e
  end.

(** [main], from the namespace on.  Every parsed file is a new object. *)
Definition main (args : namespace) : outcome :=
  if String.eqb (command args) "show" then
    finish
      (deriv <- parse_derivation_file literal_eval environ read_file
                  (derivation_path args) ;;
       text <- snd (display json_dumps yaml_dump rtyaml_dump 0
                      (attribute args) (env_var args) (format args)
                      (pretty args) (fun _ => deriv)) ;;
       Ok [text])
  else if String.eqb (command args) "diff" then
    finish
      (first_deriv <- parse_derivation_file literal_eval environ read_file
                        (first args) ;;
       second_deriv <- parse_derivation_file literal_eval environ read_file
                         (second args) ;;
       report <- snd (diff 0 1 (two_object_store first_deriv second_deriv)) ;;
       Ok [datadiff_str report])
  else if String.eqb (command args) "sdiff" then
    finish
      (first_deriv <- parse_derivation_file literal_eval environ read_file
                        (first args) ;;
       second_deriv <- parse_derivation_file literal_eval environ read_file
                         (second args) ;;
       smart <- diff_derivations first_deriv second_deriv ;;
       match smart with
       | inl summary => Ok [summary]
       | inr (description, left_side, right_side) =>
           Ok [description ++ " differs:"; "Left:"; left_side; "Right:"; right_side]
       end)
  else Exited ("Command " ++ command args ++ " not implemented").

End Main.

End cli.

(** * Properties *)

(** ** Equality of literals *)

Fixpoint literal_rect' (P : literal -> Prop)
    (HStr : forall s, P (LStr s))
    (HList : forall xs, Forall P xs -> P (LList xs))
    (HTuple : forall xs, Forall P xs -> P (LTuple xs))
    (a : literal) : P a :=
  let all := fix all (xs : list literal) : Forall P xs :=
    match xs with
    | [] => Forall_nil P
    | x :: rest =>
        Forall_cons x (literal_rect' P HStr HList HTuple x) (all rest)
    end in
  match a with
  | LStr s => HStr s
  | LList xs => HList xs (all xs)
  | LTuple xs => HTuple xs (all xs)
  end.

Lemma seq_eqb_refl (xs : list literal) :
  Forall (fun x => literal_eqb x x = true) xs -> seq_eqb literal_eqb xs xs = true.
Proof.
  induction 1 as [|x rest Hx _ IH]; simpl; [reflexivity|].
  now rewrite Hx, IH.
Qed.

Lemma literal_eqb_refl (a : literal) : literal_eqb a a = true.
Proof.
  induction a using literal_rect'; simpl.
  - apply String.eqb_refl.
  - now apply seq_eqb_refl.
  - now apply seq_eqb_refl.
Qed.

Lemma seq_eqb_eq (xs : list literal) :
  Forall (fun x => forall y, literal_eqb x y = true -> x = y) xs ->
  forall ys, seq_eqb literal_eqb xs ys = true -> xs = ys.
Proof.
  induction 1 as [|x rest Hx _ IH]; intros [|y ys] H; simpl in H;
    try discriminate; [reflexivity|].
  apply andb_true_iff in H as [H1 H2].
  f_equal; auto.
Qed.

Lemma literal_eqb_eq (a b : literal) : literal_eqb a b = true -> a = b.
Proof.
  revert b. induction a using literal_rect'; intros [t|ys|ys] Hab;
    simpl in Hab; try discriminate.
  - f_equal. now apply String.eqb_eq.
  - f_equal. now apply seq_eqb_eq.
  - f_equal. now apply seq_eqb_eq.
Qed.

Lemma literal_eqb_iff (a b : literal) : literal_eqb a b = true <-> a = b.
Proof.
  split; [apply literal_eqb_eq|]. intros ->. apply literal_eqb_refl.
Qed.

Lemma set_contains_In (x : literal) (xs : list literal) :
  set_contains x xs = true <-> In x xs.
Proof.
  unfold set_contains. rewrite existsb_exists. split.
  - intros (y & Hin & Heq). apply literal_eqb_eq in Heq. now subst.
  - intros Hin. exists x. split; [assumption | apply literal_eqb_refl].
Qed.

(** ** Results and loops *)

Lemma bind_Ok {A B : Type} (r : result A) (k : A -> result B) (b : B) :
  bind r k = Ok b -> exists a, r = Ok a /\ k a = Ok b.
Proof.
  destruct r as [a|e]; simpl; [|discriminate]. intros H. now exists a.
Qed.

Lemma for_each_invariant {A S : Type} (P : S -> Prop)
    (body : S -> A -> result S) (items : list A) :
  (forall acc x acc', P acc -> body acc x = Ok acc' -> P acc') ->
  forall acc r, P acc -> for_each body items acc = Ok r -> P r.
Proof.
  intros Hstep. induction items as [|x rest IH]; intros acc r Hacc Hrun.
  - simpl in Hrun. now inversion Hrun; subst.
  - simpl in Hrun. apply bind_Ok in Hrun as (acc' & Hx & Hrest).
    eapply IH; [|exact Hrest]. eapply Hstep; eauto.
Qed.

Lemma for_each_raises {A S : Type} (body : S -> A -> result S)
    (items : list A) (x : A) :
  In x items ->
  (forall acc, exists e, body acc x = Raise e) ->
  forall acc, exists e, for_each body items acc = Raise e.
Proof.
  intros Hin Hx. induction items as [|y rest IH]; [destruct Hin|].
  intros acc. simpl. destruct Hin as [->|Hin].
  - destruct (Hx acc) as [e He]. rewrite He. now exists e.
  - destruct (body acc y) as [acc'|e]; simpl; [now apply IH | now exists e].
Qed.

(** ** Dicts keep their keys distinct *)

Lemma dict_get_distinct (kvs : list (literal * literal)) (k v : literal) :
  distinct (dict_keys kvs) = true -> In (k, v) kvs -> dict_get k kvs = Some v.
Proof.
  induction kvs as [|[k' v'] rest IH]; intros Hd Hin; [destruct Hin|].
  simpl in Hd. apply andb_true_iff in Hd as [Hfresh Hd].
  apply negb_true_iff in Hfresh. simpl. destruct Hin as [Heq|Hin].
  - inversion Heq; subst. now rewrite literal_eqb_refl.
  - destruct (literal_eqb k' k) eqn:Hk; [|now apply IH].
    apply literal_eqb_eq in Hk; subst k'.
    assert (set_contains k (dict_keys rest) = true) as Hc.
    { apply set_contains_In. unfold dict_keys.
      change k with (fst (k, v)). now apply in_map. }
    congruence.
Qed.

Lemma dict_put_keys (k v : literal) (kvs : list (literal * literal)) :
  dict_keys (dict_put k v kvs)
  = if set_contains k (dict_keys kvs) then dict_keys kvs
    else (dict_keys kvs ++ [k])%list.
Proof.
  induction kvs as [|[k' v'] rest IH]; [reflexivity|].
  simpl. destruct (literal_eqb k' k) eqn:Hk.
  - apply literal_eqb_eq in Hk; subst. now rewrite literal_eqb_refl.
  - assert (literal_eqb k k' = false) as ->.
    { destruct (literal_eqb k k') eqn:Hk'; [|reflexivity].
      apply literal_eqb_eq in Hk'; subst. now rewrite literal_eqb_refl in Hk. }
    simpl. fold (set_contains k (dict_keys rest)). rewrite IH.
    now destruct (set_contains k (dict_keys rest)).
Qed.

Lemma distinct_snoc (xs : list literal) (k : literal) :
  distinct xs = true -> set_contains k xs = false ->
  distinct (xs ++ [k]) = true.
Proof.
  induction xs as [|x rest IH]; intros Hd Hk; [reflexivity|].
  simpl in *. apply andb_true_iff in Hd as [Hfresh Hd].
  apply orb_false_iff in Hk as [Hkx Hk].
  rewrite IH by assumption. rewrite andb_true_r.
  apply negb_true_iff. apply negb_true_iff in Hfresh.
  unfold set_contains in *. rewrite existsb_app, Hfresh. simpl.
  destruct (literal_eqb x k) eqn:Hxk; [|reflexivity].
  apply literal_eqb_eq in Hxk; subst. now rewrite literal_eqb_refl in Hkx.
Qed.

Lemma dict_put_distinct (k v : literal) (kvs : list (literal * literal)) :
  distinct (dict_keys kvs) = true -> distinct (dict_keys (dict_put k v kvs)) = true.
Proof.
  intros Hd. rewrite dict_put_keys.
  destruct (set_contains k (dict_keys kvs)) eqn:Hk; [assumption|].
  now apply distinct_snoc.
Qed.

Lemma dict_setitem_distinct (kvs kvs' : list (literal * literal)) (k v : literal) :
  distinct (dict_keys kvs) = true -> dict_setitem kvs k v = Ok kvs' ->
  distinct (dict_keys kvs') = true.
Proof.
  unfold dict_setitem, check_hashable. intros Hd H.
  destruct (hashable k); simpl in H; [|discriminate].
  inversion H; subst. now apply dict_put_distinct.
Qed.

Lemma dict_of_distinct (its : list literal) (kvs : list (literal * literal)) :
  dict_of its = Ok kvs -> distinct (dict_keys kvs) = true.
Proof.
  unfold dict_of.
  apply (for_each_invariant (fun kvs => distinct (dict_keys kvs) = true));
    [|reflexivity].
  intros acc item acc' Hacc Hbody.
  destruct (iter_literal item) as [|k [|v [|? ?]]]; try discriminate.
  eapply dict_setitem_distinct; eauto.
Qed.

Lemma outputs_of_distinct (its : list literal) (kvs : list (literal * literal)) :
  outputs_of its = Ok kvs -> distinct (dict_keys kvs) = true.
Proof.
  unfold outputs_of.
  apply (for_each_invariant (fun kvs => distinct (dict_keys kvs) = true));
    [|reflexivity].
  intros acc item acc' Hacc Hbody.
  destruct (iter_literal item) as [|a [|b [|c [|d [|? ?]]]]]; try discriminate.
  eapply dict_setitem_distinct; eauto.
Qed.

(** ** [==] is reflexive on well-represented values *)

Lemma value_eqb_refl (v : value) : value_ok v = true -> value_eqb v v = true.
Proof.
  destruct v as [l|xs|kvs]; simpl; intros Hok.
  - apply literal_eqb_refl.
  - rewrite Nat.eqb_refl. simpl. apply forallb_forall.
    intros x Hx. now apply set_contains_In.
  - rewrite Nat.eqb_refl. simpl. apply forallb_forall.
    intros [k v] Hin. simpl.
    rewrite (dict_get_distinct kvs k v Hok Hin). apply literal_eqb_refl.
Qed.

Lemma Derivation_eq_refl (d : Derivation) :
  Derivation_ok d = true -> Derivation_eq d d = true.
Proof.
  destruct d as [o i f s b a e]. unfold Derivation_ok, Derivation_eq, attrs_eqb.
  simpl. rewrite !andb_true_iff. intros (Ho & Hi & Hf & Hs & Hb & Ha & He & _).
  now rewrite !value_eqb_refl.
Qed.

Lemma parse_derivation_ok (literal_eval : string -> result literal)
    (text path : string) (d : Derivation) :
  parse_derivation literal_eval text path = Ok d -> Derivation_ok d = true.
Proof.
  unfold parse_derivation. intros H.
  repeat (apply bind_Ok in H as (? & ? & H)).
  inversion H; subst. unfold Derivation_ok. simpl.
  repeat match goal with
         | Hd : dict_of _ = Ok _ |- _ => apply dict_of_distinct in Hd; rewrite Hd
         | Hd : outputs_of _ = Ok _ |- _ => apply outputs_of_distinct in Hd; rewrite Hd
         end.
  reflexivity.
Qed.

(** ** Parsing *)

(** C1: the example text of the specification parses to the record with
    outputs out -> /store/abc-foo, input_files /store/src-bar, system
    x86_64-linux, builder /bin/sh, builder_args -c and echo hi,
    environment name -> foo; on that record [name] yields foo and
    [input_paths] yields the set of /store/src-bar alone, whatever the
    environment and the file system are. *)
Theorem example_parses :
  forall (path : string) (literal_eval : string -> result literal)
         (environ : string -> option string)
         (read_file : string -> result string),
    parse_derivation grammar_literal_eval example_text path
    = Ok example_derivation
    /\ outputs example_derivation = VDict [(LStr "out", LStr "/store/abc-foo")]
    /\ input_files example_derivation = VSet [LStr "/store/src-bar"]
    /\ system example_derivation = VLit (LStr "x86_64-linux")
    /\ builder example_derivation = VLit (LStr "/bin/sh")
    /\ builder_args example_derivation
       = VLit (LList [LStr "-c"; LStr "echo hi"])
    /\ environment example_derivation = VDict [(LStr "name", LStr "foo")]
    /\ name example_derivation = Ok (LStr "foo")
    /\ input_paths literal_eval environ read_file example_derivation
       = Ok (VSet [LStr "/store/src-bar"]).
Proof.
  intros path literal_eval environ read_file. repeat split.
Qed.

Lemma drop_last_snoc (s : string) (c : ascii) :
  drop_last (s ++ String c EmptyString) = s.
Proof.
  induction s as [|a s IH]; [reflexivity|].
  simpl. rewrite IH. now destruct s.
Qed.

Lemma starts_with_bracket (body : string) :
  String.prefix "[" body = true -> exists rest, body = String "[" rest.
Proof.
  destruct body as [|c rest]; cbn [String.prefix]; [discriminate|].
  destruct (ascii_dec "[" c) as [<-|]; [|discriminate]. now exists rest.
Qed.

Lemma wrapped_has_prefix (rest : string) :
  String.prefix "Derive([" ("Derive(" ++ String "[" rest ++ ")") = true.
Proof.
  change (String.prefix "Derive([" ("Derive(" ++ String "[" rest ++ ")"))
    with (String.prefix EmptyString (rest ++ ")")).
  now destruct (rest ++ ")").
Qed.

(** C9: the prefix is optional.  A body whose 7-tuple opens with the
    bracket of its first element, the list of outputs, parses the same
    with and without the wrapping Derive( and ): the same record, or the
    same exception. *)
Theorem Derive_prefix_optional (literal_eval : string -> result literal)
    (body path : string) :
  String.prefix "[" body = true ->
  parse_derivation literal_eval ("Derive(" ++ body ++ ")") path
  = parse_derivation literal_eval body path.
Proof.
  intros Hopen. apply starts_with_bracket in Hopen as [rest ->].
  unfold parse_derivation.
  rewrite (wrapped_has_prefix rest).
  change (String.prefix "Derive([" (String "[" rest)) with false.
  cbv iota.
  change (drop 7 ("Derive(" ++ String "[" rest ++ ")")) with (String "[" rest ++ ")").
  now rewrite drop_last_snoc.
Qed.

Lemma Derive_prefix_optional_example :
  String.prefix "[" example_body = true
  /\ parse_derivation grammar_literal_eval ("Derive(" ++ example_body ++ ")")
       "/store/abc-foo.drv"
     = parse_derivation grammar_literal_eval example_body "/store/abc-foo.drv"
  /\ parse_derivation grammar_literal_eval example_body "/store/abc-foo.drv"
     = Ok example_derivation.
Proof.
  split; [reflexivity|]. split.
  - apply (Derive_prefix_optional grammar_literal_eval). reflexivity.
  - reflexivity.
Defined.

Example parenthesised_body_is_not_unwrapped :
  parse_derivation grammar_literal_eval ("(" ++ example_body ++ ")")
    "/store/abc-foo.drv" = Ok example_derivation
  /\ exists e,
       parse_derivation grammar_literal_eval
         ("Derive(" ++ ("(" ++ example_body ++ ")") ++ ")") "/store/abc-foo.drv"
       = Raise e.
Proof. split; [reflexivity | eexists; reflexivity]. Qed.

(** C10: the source path leaves no trace.  Parsing one text under two
    source paths gives two records that are equal under [__eq__], or
    raises the same exception twice. *)
Theorem parse_derivation_ignores_path (literal_eval : string -> result literal)
    (text p q : string) :
  match parse_derivation literal_eval text p,
        parse_derivation literal_eval text q with
  | Ok a, Ok b => Derivation_eq a b = true
  | Raise e1, Raise e2 => e1 = e2
  | _, _ => False
  end.
Proof.
  change (parse_derivation literal_eval text q)
    with (parse_derivation literal_eval text p).
  destruct (parse_derivation literal_eval text p) as [d|e] eqn:Hp; [|reflexivity].
  apply Derivation_eq_refl. eapply parse_derivation_ok; eauto.
Qed.

(** C7: a failure of [parse_derivation] on the text of a readable file
    reaches the caller of [parse_derivation_file] as one [ValueError]
    whose message holds the path of the file that was opened and the
    [repr] of the exception that was raised. *)
Theorem parse_derivation_file_wraps_errors
    (literal_eval : string -> result literal)
    (environ : string -> option string) (read_file : string -> result string)
    (derivation_path source : string) (cause : exn) :
  read_file (resolve_path environ derivation_path) = Ok source ->
  parse_derivation literal_eval source (resolve_path environ derivation_path)
  = Raise cause ->
  parse_derivation_file literal_eval environ read_file derivation_path
  = Raise (ValueError ("Couldn't parse derivation at path "
                       ++ resolve_path environ derivation_path
                       ++ ": " ++ repr_exn cause)).
Proof.
  intros Hread Hparse. unfold parse_derivation_file.
  rewrite Hread. simpl. now rewrite Hparse.
Qed.

Lemma parse_derivation_file_wraps_errors_example :
  example_files "/store/broken.drv" = Ok (dq "Derive([('out','/store/x','',''")
  /\ parse_derivation_file grammar_literal_eval no_environ example_files
       "/store/broken.drv"
     = Raise (ValueError
                "Couldn't parse derivation at path /store/broken.drv: SyntaxError('unterminated string literal')").
Proof.
  split; [reflexivity|].
  apply (parse_derivation_file_wraps_errors grammar_literal_eval no_environ
           example_files "/store/broken.drv"
           (dq "Derive([('out','/store/x','',''")
           (SyntaxError "unterminated string literal"));
    reflexivity.
Defined.

Example arity_mismatch_is_wrapped :
  parse_derivation_file grammar_literal_eval no_environ
    (fun _ => Ok (dq "Derive([('out','/store/x','')],[],[],'a','b',[],[])"))
    "/store/short.drv"
  = Raise (ValueError
             "Couldn't parse derivation at path /store/short.drv: ValueError('not enough values to unpack')").
Proof. reflexivity. Qed.

Example relative_path_is_joined :
  parse_derivation_file grammar_literal_eval
    (fun key => if String.eqb key "NIX_STORE" then Some "/store" else None)
    example_files "broken.drv"
  = Raise (ValueError
             "Couldn't parse derivation at path /store/broken.drv: SyntaxError('unterminated string literal')").
Proof. reflexivity. Qed.

(** C5, as the code has it: the record made from a file has the seven
    attributes of [__init__] and none named path, and it is the record
    that the text of the file gives under any source path. *)
Theorem parsed_file_record_has_no_path
    (literal_eval : string -> result literal)
    (environ : string -> option string) (read_file : string -> result string)
    (derivation_path : string) (d : Derivation) :
  parse_derivation_file literal_eval environ read_file derivation_path = Ok d ->
  assoc "path" (vars d) = None
  /\ map fst (vars d)
     = ["outputs"; "input_derivations"; "input_files"; "system"; "builder";
        "builder_args"; "environment"]
  /\ exists source,
       read_file (resolve_path environ derivation_path) = Ok source
       /\ forall path, parse_derivation literal_eval source path = Ok d.
Proof.
  unfold parse_derivation_file. intros H.
  apply bind_Ok in H as (source & Hread & Hparse).
  repeat split. exists source. split; [assumption|]. intros path.
  change (parse_derivation literal_eval source path)
    with (parse_derivation literal_eval source (resolve_path environ derivation_path)).
  now destruct (parse_derivation literal_eval source
                  (resolve_path environ derivation_path)).
Qed.

Lemma parsed_file_record_has_no_path_example :
  parse_derivation_file grammar_literal_eval no_environ example_files
    "/store/abc-foo.drv" = Ok example_derivation
  /\ assoc "path" (vars example_derivation) = None
  /\ map fst (vars example_derivation)
     = ["outputs"; "input_derivations"; "input_files"; "system"; "builder";
        "builder_args"; "environment"]
  /\ exists source,
       example_files (resolve_path no_environ "/store/abc-foo.drv") = Ok source
       /\ forall path,
            parse_derivation grammar_literal_eval source path
            = Ok example_derivation.
Proof.
  split; [reflexivity|].
  apply (parsed_file_record_has_no_path grammar_literal_eval no_environ
           example_files "/store/abc-foo.drv" example_derivation).
  reflexivity.
Defined.

(** C5, as stated, fails: the record parsed from the file
    /store/abc-foo.drv has no attribute named path. *)
Lemma parsed_example_stores_no_path :
  parse_derivation_file grammar_literal_eval no_environ example_files
    "/store/abc-foo.drv" = Ok example_derivation
  /\ assoc "path" (vars example_derivation)
     <> Some (VLit (LStr "/store/abc-foo.drv")).
Proof. split; [reflexivity | discriminate]. Qed.

(** ** Input paths *)

(** [input_paths] raises, and returns no set, when the file of an entry
    of [input_derivations] cannot be read, and when that file parses to a
    derivation whose outputs lack one of the names the entry asks for,
    wherever the entry stands. *)
Lemma input_paths_raises_on_unresolved_entry
    (literal_eval : string -> result literal)
    (environ : string -> option string) (read_file : string -> result string)
    (self : Derivation) (entries : list (literal * literal))
    (deriv_path : string) (names : literal) :
  input_derivations self = VDict entries ->
  In (LStr deriv_path, names) entries ->
  (exists e, read_file (resolve_path environ deriv_path) = Raise e)
  \/ (exists input_deriv kvs output,
        parse_derivation_file literal_eval environ read_file deriv_path
        = Ok input_deriv
        /\ outputs input_deriv = VDict kvs
        /\ In output (iter_literal names)
        /\ dict_get output kvs = None) ->
  exists e, input_paths literal_eval environ read_file self = Raise e.
Proof.
  intros Hentries Hin Hcase. unfold input_paths.
  destruct (set_of (value_iter (input_files self))) as [paths|e]; simpl;
    [|now exists e].
  rewrite Hentries. simpl.
  assert (forall acc, exists e,
             add_input_derivation literal_eval environ read_file acc
               (LStr deriv_path, names) = Raise e) as Hbody.
  { intros acc. unfold add_input_derivation. simpl.
    destruct Hcase as [[e Hread] | (d & kvs & output & Hd & Hkvs & Hout & Hget)].
    - unfold parse_derivation_file. rewrite Hread. simpl. now exists e.
    - rewrite Hd. simpl. unfold add_outputs.
      apply for_each_raises with (x := output); [assumption|].
      intros acc'. rewrite Hkvs.
      unfold value_subscript, dict_getitem, check_hashable.
      destruct (hashable output); simpl; [|eauto].
      rewrite Hget. simpl. eauto. }
  destruct (for_each_raises _ entries _ Hin Hbody paths) as [e He].
  rewrite He. simpl. now exists e.
Qed.

Lemma for_each_first_raise {A S : Type} (body : S -> A -> result S)
    (before after : list A) (x : A) (acc acc' : S) (e : exn) :
  for_each body before acc = Ok acc' -> body acc' x = Raise e ->
  for_each body (before ++ x :: after)%list acc = Raise e.
Proof.
  revert acc. induction before as [|y before IH]; intros acc Hbefore Hx;
    simpl in *.
  - inversion Hbefore; subst. now rewrite Hx.
  - destruct (body acc y) as [acc1|e1]; simpl in *; [|discriminate].
    now apply IH.
Qed.

(** C8, as the code has it: [input_paths] raises, and returns no set,
    when the file of an entry of [input_derivations] cannot be read, and
    when that file parses to a derivation whose outputs lack one of the
    names the entry asks for.  What is raised is no error of
    [input_paths]'s own: when all that comes before has succeeded, it is
    the exception of the failed read as it is, and [KeyError] of the
    missing name. *)
Theorem input_paths_raises_unwrapped
    (literal_eval : string -> result literal)
    (environ : string -> option string) (read_file : string -> result string)
    (self : Derivation) (entries : list (literal * literal))
    (deriv_path : string) (names : literal) :
  input_derivations self = VDict entries ->
  In (LStr deriv_path, names) entries ->
  (forall e,
      read_file (resolve_path environ deriv_path) = Raise e ->
      (exists e', input_paths literal_eval environ read_file self = Raise e')
      /\ (forall before after paths paths',
             entries = (before ++ (LStr deriv_path, names) :: after)%list ->
             set_of (value_iter (input_files self)) = Ok paths ->
             for_each (add_input_derivation literal_eval environ read_file)
               before paths = Ok paths' ->
             input_paths literal_eval environ read_file self = Raise e))
  /\ (forall input_deriv kvs output,
         parse_derivation_file literal_eval environ read_file deriv_path
         = Ok input_deriv ->
         outputs input_deriv = VDict kvs ->
         In output (iter_literal names) ->
         dict_get output kvs = None ->
         (exists e', input_paths literal_eval environ read_file self = Raise e')
         /\ (forall before after paths paths' done rest paths'',
                entries = (before ++ (LStr deriv_path, names) :: after)%list ->
                set_of (value_iter (input_files self)) = Ok paths ->
                for_each (add_input_derivation literal_eval environ read_file)
                  before paths = Ok paths' ->
                iter_literal names = (done ++ output :: rest)%list ->
                add_outputs input_deriv done paths' = Ok paths'' ->
                hashable output = true ->
                input_paths literal_eval environ read_file self
                = Raise (KeyError output))).
Proof.
  intros Hentries Hin. split.
  - intros e Hread. split.
    + apply (input_paths_raises_on_unresolved_entry literal_eval environ
               read_file self entries deriv_path names Hentries Hin).
      left. now exists e.
    + intros before after paths paths' Hsplit Hfiles Hbefore.
      unfold input_paths. rewrite Hfiles, Hentries, Hsplit. simpl.
      rewrite (for_each_first_raise _ before after _ paths paths' e Hbefore);
        [reflexivity|].
      unfold add_input_derivation, parse_derivation_file. simpl.
      now rewrite Hread.
  - intros input_deriv kvs output Hparse Hkvs Hout Hget. split.
    + apply (input_paths_raises_on_unresolved_entry literal_eval environ
               read_file self entries deriv_path names Hentries Hin).
      right. now exists input_deriv, kvs, output.
    + intros before after paths paths' done rest paths''
        Hsplit Hfiles Hbefore Hnames Hdone Hhash.
      unfold input_paths. rewrite Hfiles, Hentries, Hsplit. simpl.
      rewrite (for_each_first_raise _ before after _ paths paths'
                 (KeyError output) Hbefore); [reflexivity|].
      unfold add_input_derivation. simpl. rewrite Hparse. simpl.
      rewrite Hnames. unfold add_outputs.
      apply (for_each_first_raise _ done rest output paths' paths'');
        [exact Hdone|].
      rewrite Hkvs. unfold value_subscript, dict_getitem, check_hashable.
      rewrite Hhash. simpl. now rewrite Hget.
Qed.

Lemma input_paths_raises_unwrapped_example :
  input_paths grammar_literal_eval no_environ example_files
    (consumer_of "/store/missing.drv" "out")
  = Raise (OSError "No such file or directory: /store/missing.drv")
  /\ input_paths grammar_literal_eval no_environ example_files
       (consumer_of "/store/e.drv" "dev")
     = Raise (KeyError (LStr "dev")).
Proof.
  split.
  - destruct (input_paths_raises_unwrapped grammar_literal_eval no_environ
                example_files (consumer_of "/store/missing.drv" "out")
                [(LStr "/store/missing.drv", LList [LStr "out"])]
                "/store/missing.drv" (LList [LStr "out"]) eq_refl
                (or_introl eq_refl)) as [Hread _].
    destruct (Hread (OSError "No such file or directory: /store/missing.drv")
                eq_refl) as [_ Hfirst].
    exact (Hfirst [] [] [] [] eq_refl eq_refl eq_refl).
  - destruct (input_paths_raises_unwrapped grammar_literal_eval no_environ
                example_files (consumer_of "/store/e.drv" "dev")
                [(LStr "/store/e.drv", LList [LStr "dev"])]
                "/store/e.drv" (LList [LStr "dev"]) eq_refl
                (or_introl eq_refl)) as [_ Hmissing].
    destruct (Hmissing fixed_output_derivation
                [(LStr "out", LTuple [LStr "/store/e-out"; LStr "sha256"; LStr "abcd"])]
                (LStr "dev") eq_refl eq_refl (or_introl eq_refl) eq_refl)
      as [_ Hfirst].
    exact (Hfirst [] [] [] [] [] [] [] eq_refl eq_refl eq_refl eq_refl eq_refl
             eq_refl).
Defined.

(** C8, as stated, fails: the two failures are exceptions of two built-in
    classes, the [OSError] that the read raised and the [KeyError] that
    the lookup of the name raised, the class that [name] raises for a
    missing variable; neither is an error of a class of its own. *)
Lemma unresolved_inputs_raise_builtin_errors :
  exn_class (OSError "No such file or directory: /store/missing.drv") = "OSError"
  /\ input_paths grammar_literal_eval no_environ example_files
       (consumer_of "/store/missing.drv" "out")
     = Raise (OSError "No such file or directory: /store/missing.drv")
  /\ exn_class (KeyError (LStr "dev")) = "KeyError"
  /\ input_paths grammar_literal_eval no_environ example_files
       (consumer_of "/store/e.drv" "dev")
     = Raise (KeyError (LStr "dev"))
  /\ name (vars_setitem "environment" (VDict []) example_derivation)
     = Raise (KeyError (LStr "name"))
  /\ exn_class (OSError "No such file or directory: /store/missing.drv")
     <> exn_class (KeyError (LStr "dev")).
Proof. repeat split. discriminate. Qed.

Example unreadable_input_raises_OSError :
  input_paths grammar_literal_eval no_environ example_files
    (consumer_of "/store/missing.drv" "out")
  = Raise (OSError "No such file or directory: /store/missing.drv").
Proof. reflexivity. Qed.

Example missing_output_raises_KeyError :
  input_paths grammar_literal_eval no_environ example_files
    (consumer_of "/store/e.drv" "dev")
  = Raise (KeyError (LStr "dev")).
Proof. reflexivity. Qed.

Example closure_of_plain_output :
  input_paths grammar_literal_eval no_environ example_files
    (consumer_of "/store/abc-foo.drv" "out")
  = Ok (VSet [LStr "/store/abc-foo"]).
Proof. reflexivity. Qed.

(** C2, at a fixed-output input: [/store/d.drv] takes the output out of
    [/store/e.drv], whose outputs hold the triple of path, hash algorithm
    and hash.  [input_paths] adds the triple as it is, and no path string. *)
Theorem input_paths_keeps_fixed_output_triple :
  parse_derivation_file grammar_literal_eval no_environ example_files
    "/store/d.drv" = Ok dependent_derivation
  /\ input_paths grammar_literal_eval no_environ example_files dependent_derivation
     = Ok (VSet [LTuple [LStr "/store/e-out"; LStr "sha256"; LStr "abcd"]]).
Proof. split; reflexivity. Qed.

(** ** Display *)

(** C6, as the code has it: with a format other than json and yaml,
    [display] encodes nothing.  A failed selection raises its lookup
    error; a selected plain string is returned as it is when [pretty] is
    true; every other run raises the [ValueError] that names the format. *)
Theorem display_unknown_format
    (json_dumps : option nat -> printable -> result string)
    (yaml_dump rtyaml_dump : printable -> result string)
    (self : ref) (attribute env_var : option string) (format : string)
    (pretty : bool) (st : store) :
  format <> "json" -> format <> "yaml" ->
  snd (display json_dumps yaml_dump rtyaml_dump self attribute env_var
         format pretty st)
  = match snd (selection self attribute env_var st) with
    | Raise e => Raise e
    | Ok (Selected (VLit (LStr s))) =>
        if pretty then Ok s
        else Raise (ValueError ("Invalid format: " ++ format))
    | Ok _ => Raise (ValueError ("Invalid format: " ++ format))
    end.
Proof.
  intros Hjson Hyaml.
  apply String.eqb_neq in Hjson. apply String.eqb_neq in Hyaml.
  unfold display, selection, mbind.
  destruct (to_dict self st) as [st1 [selfdict|e]]; [|reflexivity].
  destruct (select self selfdict attribute env_var st1) as [st2 [to_print|e]];
    [|reflexivity].
  destruct to_print as [attrs|[[s|xs|xs]|xs|kvs]], pretty; simpl;
    rewrite ?Hjson, ?Hyaml; reflexivity.
Qed.

Lemma display_unknown_format_example :
  "string" <> "json" /\ "string" <> "yaml"
  /\ snd (display no_json no_encoder no_encoder 0 None None "string" false
         example_store)
  = Raise (ValueError "Invalid format: string").
Proof.
  split; [discriminate|]. split; [discriminate|].
  rewrite (display_unknown_format no_json no_encoder no_encoder 0 None None
             "string" false example_store); [reflexivity | | ]; discriminate.
Defined.

(** C6, as stated, fails: with the format string and [pretty] true, the
    selection of the attribute system is returned, and nothing is raised. *)
Lemma display_returns_string_for_unknown_format :
  snd (display no_json no_encoder no_encoder 0 (Some "system") None "string"
         true example_store)
  = Ok "x86_64-linux".
Proof. reflexivity. Qed.

(** ** Writes through [vars(self)] *)

(** C3, at the example: [display] leaves the object with a list where
    [input_files] was a set, [diff] leaves both objects with the list of
    output names where [outputs] was a dict, and a second [diff] on the
    same objects raises for that reason. *)
Theorem diff_and_display_write_to_the_object :
  input_files (example_store 0) = VSet [LStr "/store/src-bar"]
  /\ input_files
       (fst (display no_json no_encoder no_encoder 0 None None "json" false
               example_store) 0)
     = VLit (LList [LStr "/store/src-bar"])
  /\ outputs (example_store 0) = VDict [(LStr "out", LStr "/store/abc-foo")]
  /\ outputs (fst (diff 0 1 example_store) 0) = VLit (LList [LStr "out"])
  /\ outputs (fst (diff 0 1 example_store) 1) = VLit (LList [LStr "out"])
  /\ snd (diff 0 1 (fst (diff 0 1 example_store)))
     = Raise (AttributeError "'list' object has no attribute 'keys'").
Proof. repeat split. Qed.

Example diff_with_itself_raises :
  snd (diff 0 0 example_store)
  = Raise (AttributeError "'list' object has no attribute 'keys'").
Proof. reflexivity. Qed.

Example output_names_after_diff_raises :
  output_names (example_store 0) = Ok (VSet [LStr "out"])
  /\ output_names (fst (diff 0 1 example_store) 0)
     = Raise (AttributeError "'list' object has no attribute 'keys'").
Proof. split; reflexivity. Qed.

(** ** The order on strings and [sorted] *)

Lemma ascii_compare_refl (a : ascii) : Ascii.compare a a = Eq.
Proof. apply N.compare_refl. Qed.

Lemma ascii_compare_lt_trans (a b c : ascii) :
  Ascii.compare a b = Lt -> Ascii.compare b c = Lt -> Ascii.compare a c = Lt.
Proof.
  unfold Ascii.compare. rewrite !N.compare_lt_iff. apply N.lt_trans.
Qed.

Lemma string_compare_lt_trans (s1 s2 s3 : string) :
  String.compare s1 s2 = Lt -> String.compare s2 s3 = Lt ->
  String.compare s1 s3 = Lt.
Proof.
  revert s2 s3.
  induction s1 as [|a s1 IH]; intros [|b s2] [|c s3]; simpl;
    try discriminate; try reflexivity.
  destruct (Ascii.compare a b) eqn:Hab; try discriminate;
    destruct (Ascii.compare b c) eqn:Hbc; try discriminate; intros H12 H23.
  - apply Ascii.compare_eq_iff in Hab, Hbc. subst.
    rewrite ascii_compare_refl. eauto.
  - apply Ascii.compare_eq_iff in Hab. subst. now rewrite Hbc.
  - apply Ascii.compare_eq_iff in Hbc. subst. now rewrite Hab.
  - now rewrite (ascii_compare_lt_trans a b c).
Qed.

Lemma ltb_asym (x y : string) : String.ltb x y = true -> String.ltb y x = false.
Proof.
  unfold String.ltb. rewrite (String.compare_antisym y x).
  now destruct (String.compare x y).
Qed.

Lemma ltb_connex (x y : string) :
  String.ltb x y = false -> String.ltb y x = false -> x = y.
Proof.
  unfold String.ltb. rewrite (String.compare_antisym y x).
  destruct (String.compare x y) eqn:Hc; simpl; try discriminate.
  intros _ _. now apply String.compare_eq_iff.
Qed.

Lemma ltb_le_lt_trans (x y z : string) :
  String.ltb z y = false -> String.ltb z x = true -> String.ltb y x = true.
Proof.
  unfold String.ltb. rewrite (String.compare_antisym z y).
  destruct (String.compare y z) eqn:Hyz; simpl; try discriminate; intros _.
  - apply String.compare_eq_iff in Hyz. now subst.
  - destruct (String.compare z x) eqn:Hzx; try discriminate. intros _.
    now rewrite (string_compare_lt_trans y z x).
Qed.

Lemma str_insert_comm (x y : string) (l : list string) :
  str_insert x (str_insert y l) = str_insert y (str_insert x l).
Proof.
  induction l as [|z l IH]; simpl.
  - destruct (String.ltb y x) eqn:Hyx, (String.ltb x y) eqn:Hxy; try reflexivity.
    + apply ltb_asym in Hyx. congruence.
    + now rewrite (ltb_connex x y).
  - destruct (String.ltb z y) eqn:Hzy, (String.ltb z x) eqn:Hzx; simpl;
      rewrite ?Hzy, ?Hzx.
    + now rewrite IH.
    + now rewrite (ltb_le_lt_trans y x z Hzx Hzy).
    + now rewrite (ltb_le_lt_trans x y z Hzy Hzx).
    + destruct (String.ltb y x) eqn:Hyx, (String.ltb x y) eqn:Hxy; simpl;
        rewrite ?Hzy, ?Hzx; try reflexivity.
      * apply ltb_asym in Hyx. congruence.
      * now rewrite (ltb_connex x y).
Qed.

Lemma str_sort_Permutation (l l' : list string) :
  Permutation l l' -> str_sort l = str_sort l'.
Proof.
  induction 1 as [|x l l' _ IH|x y l|l l' l'' _ IH1 _ IH2]; simpl.
  - reflexivity.
  - now rewrite IH.
  - apply str_insert_comm.
  - congruence.
Qed.

Lemma sorted_insert_str (x : string) (l : list string) :
  sorted_insert (LStr x) (map LStr l) = Ok (map LStr (str_insert x l)).
Proof.
  induction l as [|y l IH]; simpl; [reflexivity|].
  destruct (String.ltb y x); [|reflexivity]. now rewrite IH.
Qed.

Lemma all_str (xs : list literal) :
  forallb is_str xs = true -> xs = map LStr (map str_of xs).
Proof.
  induction xs as [|[s|?|?] xs IH]; simpl; try discriminate; [reflexivity|].
  intros H. now rewrite <- IH.
Qed.

Lemma sorted_str (xs : list literal) :
  forallb is_str xs = true ->
  sorted xs = Ok (map LStr (str_sort (map str_of xs))).
Proof.
  induction xs as [|[s|?|?] xs IH]; simpl; try discriminate; [reflexivity|].
  intros H. rewrite (IH H). simpl. apply sorted_insert_str.
Qed.

Lemma distinct_NoDup (xs : list literal) : distinct xs = true -> NoDup xs.
Proof.
  induction xs as [|x xs IH]; simpl; [constructor|].
  intros H. apply andb_true_iff in H as [Hx Hd]. constructor; [|now apply IH].
  intros Hin. apply set_contains_In in Hin. rewrite Hin in Hx. discriminate.
Qed.

Lemma same_names_Permutation (xs ys : list literal) :
  distinct xs = true -> value_eqb (VSet xs) (VSet ys) = true ->
  Permutation xs ys.
Proof.
  simpl. intros Hd H. apply andb_true_iff in H as [Hlen Hincl].
  apply Nat.eqb_eq in Hlen.
  apply NoDup_Permutation_bis; [now apply distinct_NoDup | lia |].
  intros x Hx. apply set_contains_In.
  rewrite forallb_forall in Hincl. now apply Hincl.
Qed.

Lemma Permutation_all_str (xs ys : list literal) :
  Permutation xs ys -> forallb is_str xs = true -> forallb is_str ys = true.
Proof.
  intros Hp H. rewrite forallb_forall in *. intros y Hy. apply H.
  eapply Permutation_in; [|exact Hy]. now apply Permutation_sym.
Qed.

Lemma sorted_same_names (xs ys : list literal) :
  distinct xs = true -> forallb is_str xs = true ->
  value_eqb (VSet xs) (VSet ys) = true ->
  exists names, sorted xs = Ok names /\ sorted ys = Ok names.
Proof.
  intros Hd Hstr Hsame.
  pose proof (same_names_Permutation xs ys Hd Hsame) as Hperm.
  exists (map LStr (str_sort (map str_of xs))). split.
  - now apply sorted_str.
  - rewrite (sorted_str ys) by (eapply Permutation_all_str; eauto).
    do 2 f_equal. apply str_sort_Permutation. apply Permutation_sym.
    now apply Permutation_map.
Qed.

(** ** The naive diff *)

Lemma normalize_outputs_run (st : store) (r : ref)
    (kvs : list (literal * literal)) (names : list literal) :
  outputs (st r) = VDict kvs -> sorted (dict_keys kvs) = Ok names ->
  normalize_outputs r st
  = (store_set st r (vars_setitem "outputs" (VLit (LList names)) (st r)), Ok tt).
Proof.
  intros Houts Hsorted. unfold normalize_outputs, mbind, getattr, lift, setitem.
  rewrite Houts. simpl. now rewrite Hsorted.
Qed.

Lemma store_set_same (st : store) (r : ref) (d : Derivation) :
  store_set st r d r = d.
Proof. unfold store_set. now rewrite Nat.eqb_refl. Qed.

Lemma store_set_other (st : store) (r r' : ref) (d : Derivation) :
  r' <> r -> store_set st r d r' = st r'.
Proof.
  intros Hne. unfold store_set. apply Nat.eqb_neq in Hne. now rewrite Hne.
Qed.

(** C4: two distinct objects whose attributes are the same except for the
    values in the outputs dict, with string output names that form the
    same set on both sides, are reported as equal by [diff]: the report
    lists no difference. *)
Theorem diff_ignores_output_paths (st : store) (self other : ref)
    (self_outputs other_outputs : list (literal * literal)) :
  self <> other ->
  outputs (st self) = VDict self_outputs ->
  st other = vars_setitem "outputs" (VDict other_outputs) (st self) ->
  Derivation_ok (st self) = true ->
  forallb is_str (dict_keys self_outputs) = true ->
  value_eqb (VSet (dict_keys self_outputs)) (VSet (dict_keys other_outputs)) = true ->
  snd (diff self other st) = Ok [].
Proof.
  intros Hne Hself Hother Hok Hstr Hsame.
  assert (distinct (dict_keys self_outputs) = true) as Hdistinct.
  { unfold Derivation_ok in Hok. simpl in Hok. rewrite Hself in Hok.
    now apply andb_true_iff in Hok as [Hok _]. }
  destruct (sorted_same_names _ _ Hdistinct Hstr Hsame)
    as (names & Hsorted_self & Hsorted_other).
  unfold diff, mbind.
  rewrite (normalize_outputs_run st self self_outputs names Hself Hsorted_self).
  rewrite (normalize_outputs_run _ other other_outputs names);
    [| rewrite store_set_other by congruence; now rewrite Hother
     | assumption].
  unfold getattr, mret. simpl.
  rewrite store_set_same.
  rewrite (store_set_other _ other self) by assumption.
  rewrite store_set_same.
  rewrite (store_set_other _ self other) by congruence.
  rewrite Hother.
  destruct (st self) as [o i f s b a e].
  unfold Derivation_ok in Hok. simpl in Hok.
  rewrite !andb_true_iff in Hok.
  destruct Hok as (_ & Hi & Hf & Hs & Hb & Ha & He & _).
  unfold datadiff_diff. simpl.
  change (seq_eqb literal_eqb names names) with (literal_eqb (LList names) (LList names)).
  rewrite literal_eqb_refl.
  now rewrite !value_eqb_refl.
Qed.

Lemma diff_ignores_output_paths_example :
  outputs (two_objects 0) = VDict left_outputs
  /\ outputs (two_objects 1) = VDict right_outputs
  /\ snd (diff 0 1 two_objects) = Ok [].
Proof.
  split; [reflexivity|]. split; [reflexivity|].
  apply (diff_ignores_output_paths two_objects 0 1 left_outputs right_outputs);
    try reflexivity.
  discriminate.
Defined.

Example diff_reports_builder_args :
  snd (diff 0 1
         (fun r => if r =? 0 then example_derivation
                   else vars_setitem "builder_args"
                          (VLit (LList [LStr "echo hi"; LStr "-c"]))
                          example_derivation))
  = Ok [("builder_args",
         Some (VLit (LList [LStr "-c"; LStr "echo hi"])),
         Some (VLit (LList [LStr "echo hi"; LStr "-c"])))].
Proof. reflexivity. Qed.

(** * Further properties *)

(** ** What [parse_derivation] checks and what it does not *)

Lemma parse_derivation_steps (literal_eval : string -> result literal)
    (text path : string) :
  parse_derivation literal_eval text path
  = bind (literal_eval (strip_wrapper text)) derivation_of_literal.
Proof.
  unfold parse_derivation, derivation_of_literal, parse_derivation, strip_wrapper.
  now destruct (literal_eval _).
Qed.

Lemma any_last_character_has_prefix (rest : string) (c : ascii) :
  String.prefix "Derive([" ("Derive(" ++ String "[" rest ++ String c EmptyString)
  = true.
Proof.
  change (String.prefix "Derive([" ("Derive(" ++ String "[" rest ++ String c EmptyString))
    with (String.prefix EmptyString (rest ++ String c EmptyString)).
  now destruct (rest ++ String c EmptyString).
Qed.

(** X1: the character that ends a wrapped text is dropped without a look
    at it.  A body that opens with a bracket, wrapped in Derive( and any
    one character, parses as the body alone does. *)
Theorem parse_drops_last_character_unchecked
    (literal_eval : string -> result literal) (body path : string) (c : ascii) :
  String.prefix "[" body = true ->
  parse_derivation literal_eval ("Derive(" ++ body ++ String c EmptyString) path
  = parse_derivation literal_eval body path.
Proof.
  intros Hopen. apply starts_with_bracket in Hopen as [rest ->].
  rewrite !parse_derivation_steps. unfold strip_wrapper.
  rewrite any_last_character_has_prefix.
  change (String.prefix "Derive([" (String "[" rest)) with false.
  cbv iota.
  change (drop 7 ("Derive(" ++ String "[" rest ++ String c EmptyString))
    with (String "[" rest ++ String c EmptyString).
  now rewrite drop_last_snoc.
Qed.

Lemma parse_drops_last_character_unchecked_example :
  String.prefix "[" example_body = true
  /\ parse_derivation grammar_literal_eval ("Derive(" ++ example_body ++ "]")
       "/store/abc-foo.drv"
     = parse_derivation grammar_literal_eval example_body "/store/abc-foo.drv"
  /\ parse_derivation grammar_literal_eval ("Derive(" ++ example_body ++ "]")
       "/store/abc-foo.drv"
     = Ok example_derivation.
Proof.
  split; [reflexivity|]. split; [|reflexivity].
  apply (parse_drops_last_character_unchecked grammar_literal_eval example_body
           "/store/abc-foo.drv" "]"%char).
  reflexivity.
Defined.

Lemma getitem_firstn (l l' : literal) (n i : nat) :
  i < n -> n <= length (iter_literal l) ->
  firstn n (iter_literal l) = firstn n (iter_literal l') ->
  getitem l i = getitem l' i.
Proof.
  intros Hi Hlen Heq. unfold getitem.
  assert (forall xs : list literal,
             nth_error xs i = nth_error (firstn n xs) i) as Hfirst.
  { intros xs. rewrite nth_error_firstn.
    apply Nat.ltb_lt in Hi. now rewrite Hi. }
  rewrite (Hfirst (iter_literal l)), (Hfirst (iter_literal l')), Heq.
  destruct (nth_error (firstn n (iter_literal l')) i) eqn:Hnth; [reflexivity|].
  apply nth_error_None in Hnth. rewrite <- Heq in Hnth.
  rewrite length_firstn in Hnth. lia.
Qed.

(** X2: [parse_derivation] reads the items 0 to 6 of the evaluated
    literal and nothing else of it: two literals with at least seven items
    that agree on their first seven, be they lists or tuples and whatever
    follows, give the same result. *)
Theorem parse_uses_first_seven_items
    (literal_eval literal_eval' : string -> result literal)
    (text path : string) (l l' : literal) :
  literal_eval (strip_wrapper text) = Ok l ->
  literal_eval' (strip_wrapper text) = Ok l' ->
  7 <= length (iter_literal l) ->
  firstn 7 (iter_literal l) = firstn 7 (iter_literal l') ->
  parse_derivation literal_eval text path
  = parse_derivation literal_eval' text path.
Proof.
  intros Hl Hl' Hlen Heq. rewrite !parse_derivation_steps, Hl, Hl'. simpl.
  unfold derivation_of_literal, parse_derivation. simpl.
  rewrite (getitem_firstn l l' 7 0), (getitem_firstn l l' 7 1),
    (getitem_firstn l l' 7 2), (getitem_firstn l l' 7 3),
    (getitem_firstn l l' 7 4), (getitem_firstn l l' 7 5),
    (getitem_firstn l l' 7 6) by (assumption || lia).
  reflexivity.
Qed.

Lemma parse_uses_first_seven_items_example :
  parse_derivation grammar_literal_eval example_text "/store/abc-foo.drv"
  = parse_derivation grammar_literal_eval long_text "/store/abc-foo.drv"
  /\ parse_derivation grammar_literal_eval long_text "/store/abc-foo.drv"
     = Ok example_derivation.
Proof.
  split; [|reflexivity].
  rewrite (parse_uses_first_seven_items grammar_literal_eval
             (fun _ => grammar_literal_eval (strip_wrapper long_text))
             example_text "/store/abc-foo.drv"
             (LTuple [LList [LTuple [LStr "out"; LStr "/store/abc-foo";
                                     LStr EmptyString; LStr EmptyString]];
                      LList []; LList [LStr "/store/src-bar"];
                      LStr "x86_64-linux"; LStr "/bin/sh";
                      LList [LStr "-c"; LStr "echo hi"];
                      LList [LTuple [LStr "name"; LStr "foo"]]])
             (LTuple [LList [LTuple [LStr "out"; LStr "/store/abc-foo";
                                     LStr EmptyString; LStr EmptyString]];
                      LList []; LList [LStr "/store/src-bar"];
                      LStr "x86_64-linux"; LStr "/bin/sh";
                      LList [LStr "-c"; LStr "echo hi"];
                      LList [LTuple [LStr "name"; LStr "foo"]];
                      LStr "more"]));
    first [reflexivity | simpl; lia].
Defined.

(** ** The sets and dicts that parsing builds *)

Lemma for_each_app {A S : Type} (body : S -> A -> result S)
    (xs ys : list A) (acc : S) :
  for_each body (xs ++ ys)%list acc
  = (acc' <- for_each body xs acc ;; for_each body ys acc').
Proof.
  revert acc. induction xs as [|x xs IH]; intros acc; simpl; [reflexivity|].
  destruct (body acc x) as [acc'|e]; simpl; [apply IH | reflexivity].
Qed.

Lemma forallb_snoc {A : Type} (f : A -> bool) (xs : list A) (x : A) :
  forallb f (xs ++ [x]) = forallb f xs && f x.
Proof. rewrite forallb_app. simpl. now rewrite andb_true_r. Qed.

Lemma set_add_genuine (xs xs' : list literal) (x : literal) :
  distinct xs && forallb hashable xs = true -> set_add xs x = Ok xs' ->
  distinct xs' && forallb hashable xs' = true.
Proof.
  unfold set_add, check_hashable. intros Hxs H.
  destruct (hashable x) eqn:Hx; simpl in H; [|discriminate].
  inversion H; subst; clear H.
  destruct (set_contains x xs) eqn:Hc; [assumption|].
  apply andb_true_iff in Hxs as [Hd Hh].
  rewrite distinct_snoc by assumption. rewrite forallb_snoc, Hh, Hx. reflexivity.
Qed.

Lemma set_of_genuine (its xs : list literal) :
  set_of its = Ok xs -> distinct xs && forallb hashable xs = true.
Proof.
  unfold set_of.
  apply (for_each_invariant
           (fun xs => distinct xs && forallb hashable xs = true));
    [|reflexivity].
  intros acc x acc' Hacc Hadd. eapply set_add_genuine; eauto.
Qed.

Lemma dict_setitem_genuine (kvs kvs' : list (literal * literal)) (k v : literal) :
  distinct (dict_keys kvs) && forallb hashable (dict_keys kvs) = true ->
  dict_setitem kvs k v = Ok kvs' ->
  distinct (dict_keys kvs') && forallb hashable (dict_keys kvs') = true.
Proof.
  unfold dict_setitem, check_hashable. intros Hkvs H.
  destruct (hashable k) eqn:Hk; simpl in H; [|discriminate].
  inversion H; subst; clear H. rewrite dict_put_keys.
  destruct (set_contains k (dict_keys kvs)) eqn:Hc; [assumption|].
  apply andb_true_iff in Hkvs as [Hd Hh].
  rewrite distinct_snoc by assumption. rewrite forallb_snoc, Hh, Hk. reflexivity.
Qed.

Lemma dict_of_genuine (its : list literal) (kvs : list (literal * literal)) :
  dict_of its = Ok kvs ->
  distinct (dict_keys kvs) && forallb hashable (dict_keys kvs) = true.
Proof.
  unfold dict_of.
  apply (for_each_invariant
           (fun kvs => distinct (dict_keys kvs)
                       && forallb hashable (dict_keys kvs) = true));
    [|reflexivity].
  intros acc item acc' Hacc Hbody.
  destruct (iter_literal item) as [|k [|v [|? ?]]]; try discriminate.
  eapply dict_setitem_genuine; eauto.
Qed.

Lemma outputs_of_genuine (its : list literal) (kvs : list (literal * literal)) :
  outputs_of its = Ok kvs ->
  distinct (dict_keys kvs) && forallb hashable (dict_keys kvs) = true.
Proof.
  unfold outputs_of.
  apply (for_each_invariant
           (fun kvs => distinct (dict_keys kvs)
                       && forallb hashable (dict_keys kvs) = true));
    [|reflexivity].
  intros acc item acc' Hacc Hbody.
  destruct (iter_literal item) as [|a [|b [|c [|d [|? ?]]]]]; try discriminate.
  eapply dict_setitem_genuine; eauto.
Qed.

(** X3: every record that [parse_derivation] returns is built from the
    items 0 to 6 of the evaluated literal, each in its own attribute:
    [outputs], [input_derivations] and [environment] hold the dicts folded
    from the items 0, 1 and 6, [input_files] the set of the elements of
    item 2, and [system], [builder] and [builder_args] the items 3, 4 and
    5 as they are.  The keys of the dicts and the elements of the set are
    hashable and pairwise different. *)
Theorem parse_result_is_genuine (literal_eval : string -> result literal)
    (text path : string) :
  match parse_derivation literal_eval text path with
  | Ok d =>
      Derivation_genuine d = true
      /\ exists l item0 item1 item2 sys bld args item6 outs ins files env,
           literal_eval (strip_wrapper text) = Ok l
           /\ getitem l 0 = Ok item0
           /\ outputs_of (iter_literal item0) = Ok outs
           /\ getitem l 1 = Ok item1
           /\ dict_of (iter_literal item1) = Ok ins
           /\ getitem l 2 = Ok item2
           /\ set_of (iter_literal item2) = Ok files
           /\ getitem l 3 = Ok sys
           /\ getitem l 4 = Ok bld
           /\ getitem l 5 = Ok args
           /\ getitem l 6 = Ok item6
           /\ dict_of (iter_literal item6) = Ok env
           /\ d = Build_Derivation (VDict outs) (VDict ins) (VSet files)
                    (VLit sys) (VLit bld) (VLit args) (VDict env)
  | Raise _ => True
  end.
Proof.
  destruct (parse_derivation literal_eval text path) as [d|e] eqn:H; [|exact I].
  rewrite parse_derivation_steps in H.
  apply bind_Ok in H as (l & Hl & H).
  unfold derivation_of_literal, parse_derivation in H. simpl in H.
  apply bind_Ok in H as (item0 & H0 & H).
  apply bind_Ok in H as (outs & Houts & H).
  apply bind_Ok in H as (item1 & H1 & H).
  apply bind_Ok in H as (ins & Hins & H).
  apply bind_Ok in H as (item2 & H2 & H).
  apply bind_Ok in H as (files & Hfiles & H).
  apply bind_Ok in H as (sys & H3 & H).
  apply bind_Ok in H as (bld & H4 & H).
  apply bind_Ok in H as (args & H5 & H).
  apply bind_Ok in H as (item6 & H6 & H).
  apply bind_Ok in H as (env & Henv & H).
  inversion H; subst; clear H. split.
  - unfold Derivation_genuine, Derivation_init. simpl.
    rewrite (outputs_of_genuine _ _ Houts), (dict_of_genuine _ _ Hins),
      (set_of_genuine _ _ Hfiles), (dict_of_genuine _ _ Henv).
    reflexivity.
  - exists l, item0, item1, item2, sys, bld, args, item6, outs, ins, files, env.
    repeat split; assumption.
Qed.

Lemma distinct_app_fresh (acc rest : list literal) (x : literal) :
  distinct (acc ++ x :: rest) = true -> set_contains x acc = false.
Proof.
  induction acc as [|a acc IH]; simpl; [reflexivity|].
  intros H. apply andb_true_iff in H as [Ha Hd].
  rewrite (IH Hd), orb_false_r.
  destruct (literal_eqb x a) eqn:Hxa; [|reflexivity].
  apply literal_eqb_eq in Hxa; subst.
  apply negb_true_iff in Ha.
  assert (set_contains a (acc ++ a :: rest) = true) as Hc.
  { apply set_contains_In, in_or_app. right. now left. }
  congruence.
Qed.

Lemma set_of_genuine_list (xs acc : list literal) :
  distinct (acc ++ xs) = true -> forallb hashable xs = true ->
  for_each set_add xs acc = Ok (acc ++ xs)%list.
Proof.
  revert acc. induction xs as [|x xs IH]; intros acc Hd Hh; simpl.
  - now rewrite app_nil_r.
  - simpl in Hh. apply andb_true_iff in Hh as [Hx Hh].
    unfold set_add at 1. unfold check_hashable. rewrite Hx. simpl.
    rewrite (distinct_app_fresh acc xs x Hd).
    rewrite IH; [now rewrite <- app_assoc | now rewrite <- app_assoc | assumption].
Qed.

(** X4: [output_names] never raises on a record that [parse_derivation]
    returned, and yields the keys of [outputs] as a set. *)
Theorem output_names_of_parsed (literal_eval : string -> result literal)
    (text path : string) (d : Derivation) :
  parse_derivation literal_eval text path = Ok d ->
  exists kvs, outputs d = VDict kvs
              /\ output_names d = Ok (VSet (dict_keys kvs)).
Proof.
  intros H. unfold parse_derivation in H.
  repeat (apply bind_Ok in H as (? & ? & H)).
  inversion H; subst; clear H. simpl.
  match goal with
  | Hd : outputs_of _ = Ok ?kvs |- _ =>
      exists kvs; split; [reflexivity|];
        apply outputs_of_genuine in Hd; apply andb_true_iff in Hd as [Hd Hh]
  end.
  unfold output_names. simpl. unfold set_of.
  rewrite (set_of_genuine_list _ []) by assumption. reflexivity.
Qed.

Lemma output_names_of_parsed_example :
  parse_derivation grammar_literal_eval repeated_text "/store/r.drv"
  = Ok repeated_derivation
  /\ exists kvs, outputs repeated_derivation = VDict kvs
                 /\ output_names repeated_derivation = Ok (VSet (dict_keys kvs)).
Proof.
  split; [reflexivity|].
  apply (output_names_of_parsed grammar_literal_eval repeated_text
           "/store/r.drv" repeated_derivation).
  reflexivity.
Defined.

Lemma dict_get_put_same (k v : literal) (kvs : list (literal * literal)) :
  dict_get k (dict_put k v kvs) = Some v.
Proof.
  induction kvs as [|[k' v'] rest IH]; simpl.
  - now rewrite literal_eqb_refl.
  - destruct (literal_eqb k' k) eqn:Hk; simpl; now rewrite Hk.
Qed.

Lemma dict_setitem_getitem (kvs kvs' : list (literal * literal)) (k v : literal) :
  dict_setitem kvs k v = Ok kvs' -> dict_getitem kvs' k = Ok v.
Proof.
  unfold dict_setitem, dict_getitem, check_hashable.
  destruct (hashable k); simpl; [|discriminate].
  intros H. inversion H; subst. now rewrite dict_get_put_same.
Qed.

Lemma for_each_invariant_In {A S : Type} (P : S -> Prop)
    (body : S -> A -> result S) (items : list A) :
  (forall acc x acc', In x items -> P acc -> body acc x = Ok acc' -> P acc') ->
  forall acc r, P acc -> for_each body items acc = Ok r -> P r.
Proof.
  induction items as [|x rest IH]; intros Hstep acc r Hacc Hrun.
  - simpl in Hrun. now inversion Hrun; subst.
  - simpl in Hrun. apply bind_Ok in Hrun as (acc' & Hx & Hrest).
    apply (IH (fun acc0 y acc1 Hy => Hstep acc0 y acc1 (or_intror Hy)) acc' r);
      [|exact Hrest].
    apply (Hstep acc x acc'); [now left | exact Hacc | exact Hx].
Qed.

Lemma dict_get_put_other (k n v : literal) (kvs : list (literal * literal)) :
  k <> n -> dict_get n (dict_put k v kvs) = dict_get n kvs.
Proof.
  intros Hne.
  assert (literal_eqb k n = false) as Hkn.
  { destruct (literal_eqb k n) eqn:H; [|reflexivity].
    apply literal_eqb_eq in H. contradiction. }
  induction kvs as [|[k' v'] rest IH]; simpl.
  - now rewrite Hkn.
  - destruct (literal_eqb k' k) eqn:Hk; simpl.
    + apply literal_eqb_eq in Hk. subst k'. now rewrite Hkn.
    + now rewrite IH.
Qed.

Lemma dict_setitem_getitem_other (kvs kvs' : list (literal * literal))
    (k n v : literal) :
  k <> n -> dict_setitem kvs k v = Ok kvs' ->
  dict_getitem kvs' n = dict_getitem kvs n.
Proof.
  unfold dict_setitem, dict_getitem, check_hashable. intros Hne.
  destruct (hashable k); simpl; [|discriminate].
  intros H. inversion H; subst. now rewrite dict_get_put_other.
Qed.

(** X5: when the list of outputs names an output more than once, the
    last entry of that name decides, wherever it stands in the list: the
    value is the bare path when the hash algorithm of that entry is the
    empty string and the triple of path, hash algorithm and hash
    otherwise. *)
Theorem last_output_entry_wins (literal_eval : string -> result literal)
    (text path : string) (l outs item n p h x : literal)
    (earlier later : list literal) (d : Derivation) :
  literal_eval (strip_wrapper text) = Ok l ->
  getitem l 0 = Ok outs ->
  iter_literal outs = (earlier ++ item :: later)%list ->
  iter_literal item = [n; p; h; x] ->
  (forall entry, In entry later -> hd_error (iter_literal entry) <> Some n) ->
  parse_derivation literal_eval text path = Ok d ->
  value_subscript (outputs d) n
  = Ok (if literal_eqb h (LStr EmptyString) then p else LTuple [p; h; x]).
Proof.
  intros Hl H0 Houts Hitem Hlater H.
  rewrite parse_derivation_steps, Hl in H. simpl in H.
  unfold derivation_of_literal, parse_derivation in H. simpl in H.
  rewrite H0 in H. simpl in H. rewrite Houts in H.
  apply bind_Ok in H as (kvs & Hkvs & H).
  repeat (apply bind_Ok in H as (? & ? & H)).
  inversion H; subst; clear H. simpl.
  unfold outputs_of in Hkvs. rewrite for_each_app in Hkvs.
  apply bind_Ok in Hkvs as (kvs0 & _ & Hrest).
  simpl in Hrest. rewrite Hitem in Hrest.
  apply bind_Ok in Hrest as (kvs1 & Hset & Hrest).
  revert Hrest.
  apply (for_each_invariant_In
           (fun kvs => dict_getitem kvs n
                       = Ok (if literal_eqb h (LStr EmptyString) then p
                             else LTuple [p; h; x])));
    [|eapply dict_setitem_getitem; eauto].
  intros acc entry acc' Hin Hacc Hbody.
  specialize (Hlater entry Hin).
  destruct (iter_literal entry) as [|n' [|p' [|h' [|x' [|? ?]]]]];
    try discriminate.
  rewrite (dict_setitem_getitem_other _ _ _ n _ (fun Heq => Hlater (f_equal Some Heq)) Hbody).
  exact Hacc.
Qed.

Lemma last_output_entry_wins_example :
  parse_derivation grammar_literal_eval shadowed_text "/store/s.drv"
  = Ok shadowed_derivation
  /\ value_subscript (outputs shadowed_derivation) (LStr "out")
     = Ok (LTuple [LStr "/store/second"; LStr "sha256"; LStr "ff"]).
Proof.
  split; [reflexivity|].
  refine (last_output_entry_wins grammar_literal_eval shadowed_text "/store/s.drv"
            (LTuple [LList [LTuple [LStr "out"; LStr "/store/first";
                                    LStr EmptyString; LStr EmptyString];
                            LTuple [LStr "out"; LStr "/store/second";
                                    LStr "sha256"; LStr "ff"];
                            LTuple [LStr "dev"; LStr "/store/dev";
                                    LStr EmptyString; LStr EmptyString]];
                     LList []; LList []; LStr "x86_64-linux"; LStr "/bin/sh";
                     LList [];
                     LList [LTuple [LStr "name"; LStr "a"];
                            LTuple [LStr "name"; LStr "b"];
                            LTuple [LStr "TERM"; LStr "dumb"]]])
            (LList [LTuple [LStr "out"; LStr "/store/first";
                            LStr EmptyString; LStr EmptyString];
                    LTuple [LStr "out"; LStr "/store/second";
                            LStr "sha256"; LStr "ff"];
                    LTuple [LStr "dev"; LStr "/store/dev";
                            LStr EmptyString; LStr EmptyString]])
            (LTuple [LStr "out"; LStr "/store/second"; LStr "sha256"; LStr "ff"])
            (LStr "out") (LStr "/store/second") (LStr "sha256") (LStr "ff")
            [LTuple [LStr "out"; LStr "/store/first";
                     LStr EmptyString; LStr EmptyString]]
            [LTuple [LStr "dev"; LStr "/store/dev";
                     LStr EmptyString; LStr EmptyString]]
            shadowed_derivation eq_refl eq_refl eq_refl eq_refl _ eq_refl).
  intros entry [<-|[]]. discriminate.
Defined.

(** X6: when the list of environment variables names a variable more than
    once, the last entry of that name decides, wherever it stands in the
    list. *)
Theorem last_environment_entry_wins (literal_eval : string -> result literal)
    (text path : string) (l env item k v : literal)
    (earlier later : list literal) (d : Derivation) :
  literal_eval (strip_wrapper text) = Ok l ->
  getitem l 6 = Ok env ->
  iter_literal env = (earlier ++ item :: later)%list ->
  iter_literal item = [k; v] ->
  (forall entry, In entry later -> hd_error (iter_literal entry) <> Some k) ->
  parse_derivation literal_eval text path = Ok d ->
  value_subscript (environment d) k = Ok v.
Proof.
  intros Hl H6 Henv Hitem Hlater H.
  rewrite parse_derivation_steps, Hl in H. simpl in H.
  unfold derivation_of_literal, parse_derivation in H. simpl in H.
  rewrite H6 in H.
  repeat (apply bind_Ok in H as (? & ? & H)).
  inversion H; subst; clear H. simpl.
  match goal with
  | Heq : Ok env = Ok ?y |- _ => injection Heq as Heq; subst y
  end.
  match goal with
  | Hd : dict_of (iter_literal env) = Ok _ |- _ =>
      rewrite Henv in Hd; unfold dict_of in Hd;
        rewrite for_each_app in Hd;
        apply bind_Ok in Hd as (kvs0 & _ & Hrest)
  end.
  simpl in Hrest. rewrite Hitem in Hrest.
  apply bind_Ok in Hrest as (kvs1 & Hset & Hrest).
  revert Hrest.
  apply (for_each_invariant_In (fun kvs => dict_getitem kvs k = Ok v));
    [|eapply dict_setitem_getitem; eauto].
  intros acc entry acc' Hin Hacc Hbody.
  specialize (Hlater entry Hin).
  destruct (iter_literal entry) as [|k' [|v' [|? ?]]]; try discriminate.
  rewrite (dict_setitem_getitem_other _ _ _ k _ (fun Heq => Hlater (f_equal Some Heq)) Hbody).
  exact Hacc.
Qed.

Lemma last_environment_entry_wins_example :
  parse_derivation grammar_literal_eval shadowed_text "/store/s.drv"
  = Ok shadowed_derivation
  /\ name shadowed_derivation = Ok (LStr "b").
Proof.
  split; [reflexivity|].
  refine (last_environment_entry_wins grammar_literal_eval shadowed_text
            "/store/s.drv"
            (LTuple [LList [LTuple [LStr "out"; LStr "/store/first";
                                    LStr EmptyString; LStr EmptyString];
                            LTuple [LStr "out"; LStr "/store/second";
                                    LStr "sha256"; LStr "ff"];
                            LTuple [LStr "dev"; LStr "/store/dev";
                                    LStr EmptyString; LStr EmptyString]];
                     LList []; LList []; LStr "x86_64-linux"; LStr "/bin/sh";
                     LList [];
                     LList [LTuple [LStr "name"; LStr "a"];
                            LTuple [LStr "name"; LStr "b"];
                            LTuple [LStr "TERM"; LStr "dumb"]]])
            (LList [LTuple [LStr "name"; LStr "a"];
                    LTuple [LStr "name"; LStr "b"];
                    LTuple [LStr "TERM"; LStr "dumb"]])
            (LTuple [LStr "name"; LStr "b"]) (LStr "name") (LStr "b")
            [LTuple [LStr "name"; LStr "a"]]
            [LTuple [LStr "TERM"; LStr "dumb"]]
            shadowed_derivation eq_refl eq_refl eq_refl eq_refl _ eq_refl).
  intros entry [<-|[]]. discriminate.
Defined.

(** ** [__eq__] *)

Lemma dict_get_In (k v : literal) (kvs : list (literal * literal)) :
  dict_get k kvs = Some v -> In (k, v) kvs.
Proof.
  induction kvs as [|[k' v'] rest IH]; simpl; [discriminate|].
  destruct (literal_eqb k' k) eqn:Hk.
  - intros H. inversion H; subst. apply literal_eqb_eq in Hk. subst. now left.
  - intros H. right. now apply IH.
Qed.

Lemma dict_eqb_incl (kvs kvs' : list (literal * literal)) :
  value_eqb (VDict kvs) (VDict kvs') = true -> incl kvs kvs'.
Proof.
  simpl. intros H. apply andb_true_iff in H as [_ H].
  rewrite forallb_forall in H. intros [k v] Hin.
  specialize (H (k, v) Hin). simpl in H.
  destruct (dict_get k kvs') as [v'|] eqn:Hget; [|discriminate].
  apply literal_eqb_eq in H. subst. now apply dict_get_In.
Qed.

Lemma distinct_keys_NoDup (kvs : list (literal * literal)) :
  distinct (dict_keys kvs) = true -> NoDup kvs.
Proof.
  intros H. apply distinct_NoDup in H. unfold dict_keys in H.
  now apply NoDup_map_inv in H.
Qed.

Lemma value_eqb_Permutation (a b : value) :
  value_ok a = true -> reordered a b -> value_eqb a b = true.
Proof.
  intros Hok Hr. revert Hok.
  destruct Hr as [l|xs ys Hp|kvs kvs' Hp]; simpl; intros Hok.
  - apply literal_eqb_refl.
  - rewrite (Permutation_length Hp), Nat.eqb_refl. simpl.
    apply forallb_forall. intros x Hx. apply set_contains_In.
    eapply Permutation_in; eauto.
  - rewrite (Permutation_length Hp), Nat.eqb_refl. simpl.
    apply forallb_forall. intros [k v] Hin. simpl.
    assert (distinct (dict_keys kvs') = true) as Hd.
    { simpl in Hok. apply distinct_NoDup in Hok.
      assert (NoDup (dict_keys kvs')) as Hn.
      { eapply Permutation_NoDup; [|exact Hok]. now apply Permutation_map. }
      clear - Hn. induction Hn as [|x xs Hx _ IH]; simpl; [reflexivity|].
      rewrite IH, andb_true_r. apply negb_true_iff.
      destruct (set_contains x xs) eqn:Hc; [|reflexivity].
      apply set_contains_In in Hc. contradiction. }
    rewrite (dict_get_distinct kvs' k v Hd); [apply literal_eqb_refl|].
    eapply Permutation_in; eauto.
Qed.

Lemma value_eqb_sym (a b : value) :
  value_genuine a = true -> value_eqb a b = true -> value_eqb b a = true.
Proof.
  destruct a as [x|xs|kvs], b as [y|ys|kvs']; simpl; try discriminate;
    intros Hg H.
  - apply literal_eqb_eq in H. subst. apply literal_eqb_refl.
  - apply andb_true_iff in Hg as [Hd _].
    apply andb_true_iff in H as [Hlen Hincl].
    apply Nat.eqb_eq in Hlen. rewrite forallb_forall in Hincl.
    assert (Permutation xs ys) as Hp.
    { apply NoDup_Permutation_bis; [now apply distinct_NoDup | lia |].
      intros x Hx. apply set_contains_In. now apply Hincl. }
    rewrite <- Hlen, Nat.eqb_refl. simpl. apply forallb_forall.
    intros y Hy. apply set_contains_In.
    eapply Permutation_in; [apply Permutation_sym; exact Hp | exact Hy].
  - apply andb_true_iff in Hg as [Hd _].
    pose proof (dict_eqb_incl kvs kvs' H) as Hincl.
    apply andb_true_iff in H as [Hlen _]. apply Nat.eqb_eq in Hlen.
    assert (Permutation kvs kvs') as Hp.
    { apply NoDup_Permutation_bis;
        [now apply distinct_keys_NoDup | lia | assumption]. }
    rewrite <- Hlen, Nat.eqb_refl. simpl. apply forallb_forall.
    intros [k v] Hin. simpl.
    rewrite (dict_get_distinct kvs k v Hd); [apply literal_eqb_refl|].
    eapply Permutation_in; [apply Permutation_sym; exact Hp | exact Hin].
Qed.

Lemma value_eqb_trans (a b c : value) :
  value_eqb a b = true -> value_eqb b c = true -> value_eqb a c = true.
Proof.
  destruct a as [x|xs|kvs], b as [y|ys|kvs'], c as [z|zs|kvs''];
    simpl; try discriminate; intros Hab Hbc.
  - apply literal_eqb_eq in Hab, Hbc. subst. apply literal_eqb_refl.
  - apply andb_true_iff in Hab as [Hlen Hincl].
    apply andb_true_iff in Hbc as [Hlen' Hincl'].
    apply Nat.eqb_eq in Hlen, Hlen'. rewrite forallb_forall in Hincl, Hincl'.
    rewrite Hlen, Hlen', Nat.eqb_refl. simpl. apply forallb_forall.
    intros x Hx. apply Hincl'. apply set_contains_In. now apply Hincl.
  - pose proof (dict_eqb_incl _ _ Hab) as Hincl.
    apply andb_true_iff in Hab as [Hlen _].
    apply andb_true_iff in Hbc as [Hlen' Hget].
    apply Nat.eqb_eq in Hlen, Hlen'. rewrite forallb_forall in Hget.
    rewrite Hlen, Hlen', Nat.eqb_refl. simpl. apply forallb_forall.
    intros [k v] Hin. exact (Hget (k, v) (Hincl (k, v) Hin)).
Qed.

Lemma genuine_ok (v : value) : value_genuine v = true -> value_ok v = true.
Proof.
  destruct v; simpl; try reflexivity. intros H.
  now apply andb_true_iff in H as [H _].
Qed.

Lemma Derivation_eq_fields (a b : Derivation) :
  Derivation_eq a b = true
  <-> value_eqb (outputs a) (outputs b) = true
      /\ value_eqb (input_derivations a) (input_derivations b) = true
      /\ value_eqb (input_files a) (input_files b) = true
      /\ value_eqb (system a) (system b) = true
      /\ value_eqb (builder a) (builder b) = true
      /\ value_eqb (builder_args a) (builder_args b) = true
      /\ value_eqb (environment a) (environment b) = true.
Proof.
  unfold Derivation_eq, attrs_eqb. simpl. rewrite !andb_true_iff. tauto.
Qed.

Lemma Derivation_genuine_fields (a : Derivation) :
  Derivation_genuine a = true
  <-> value_genuine (outputs a) = true
      /\ value_genuine (input_derivations a) = true
      /\ value_genuine (input_files a) = true
      /\ value_genuine (system a) = true
      /\ value_genuine (builder a) = true
      /\ value_genuine (builder_args a) = true
      /\ value_genuine (environment a) = true.
Proof.
  unfold Derivation_genuine. simpl. rewrite !andb_true_iff. tauto.
Qed.

(** X7: on records whose sets and dicts are genuine, as those of parsed
    derivations are, [__eq__] is an equivalence: it is reflexive and
    symmetric, and it is transitive. *)
Theorem Derivation_eq_equivalence (a : Derivation) :
  Derivation_genuine a = true ->
  Derivation_eq a a = true
  /\ (forall b, Derivation_eq a b = true -> Derivation_eq b a = true)
  /\ (forall b c, Derivation_eq a b = true -> Derivation_eq b c = true ->
                  Derivation_eq a c = true).
Proof.
  intros Hg. apply Derivation_genuine_fields in Hg.
  destruct Hg as (Ho & Hi & Hf & Hs & Hb & Ha & He).
  split; [|split].
  - apply Derivation_eq_fields. repeat split; apply value_eqb_refl;
      now apply genuine_ok.
  - intros b Hab. apply Derivation_eq_fields in Hab.
    destruct Hab as (? & ? & ? & ? & ? & ? & ?).
    apply Derivation_eq_fields. repeat split; now apply value_eqb_sym.
  - intros b c Hab Hbc. apply Derivation_eq_fields in Hab, Hbc.
    destruct Hab as (? & ? & ? & ? & ? & ? & ?).
    destruct Hbc as (? & ? & ? & ? & ? & ? & ?).
    apply Derivation_eq_fields. repeat split; eapply value_eqb_trans; eauto.
Qed.

Lemma Derivation_eq_equivalence_example :
  Derivation_genuine example_derivation = true
  /\ Derivation_eq example_derivation example_derivation = true
  /\ (forall b, Derivation_eq example_derivation b = true ->
                Derivation_eq b example_derivation = true)
  /\ (forall b c, Derivation_eq example_derivation b = true ->
                  Derivation_eq b c = true ->
                  Derivation_eq example_derivation c = true).
Proof.
  split; [reflexivity|].
  apply (Derivation_eq_equivalence example_derivation). reflexivity.
Defined.

(** X8: [__eq__] does not see the order in which the elements of a set
    or the items of a dict are listed: two records whose attributes agree
    up to such a reordering are equal. *)
Theorem Derivation_eq_ignores_order (a b : Derivation) :
  Derivation_ok a = true ->
  reordered (outputs a) (outputs b) ->
  reordered (input_derivations a) (input_derivations b) ->
  reordered (input_files a) (input_files b) ->
  reordered (system a) (system b) ->
  reordered (builder a) (builder b) ->
  reordered (builder_args a) (builder_args b) ->
  reordered (environment a) (environment b) ->
  Derivation_eq a b = true.
Proof.
  intros Hok Ho Hi Hf Hs Hb Ha He.
  unfold Derivation_ok in Hok. simpl in Hok. rewrite !andb_true_iff in Hok.
  destruct Hok as (? & ? & ? & ? & ? & ? & ? & _).
  apply Derivation_eq_fields.
  repeat split; now apply value_eqb_Permutation.
Qed.

Lemma Derivation_eq_ignores_order_example :
  Derivation_eq
    (Build_Derivation (VDict left_outputs) (VDict [])
       (VSet [LStr "/store/a"; LStr "/store/b"]) (VLit (LStr "x86_64-linux"))
       (VLit (LStr "/bin/sh")) (VLit (LList [])) (VDict []))
    (Build_Derivation (VDict (rev left_outputs)) (VDict [])
       (VSet [LStr "/store/b"; LStr "/store/a"]) (VLit (LStr "x86_64-linux"))
       (VLit (LStr "/bin/sh")) (VLit (LList [])) (VDict []))
  = true.
Proof.
  apply Derivation_eq_ignores_order; simpl; try reflexivity;
    constructor; try apply Permutation_refl.
  - apply perm_swap.
  - apply perm_swap.
Defined.

(** X9: two records that are equal under [__eq__] hold the same literal
    in each attribute that holds one: lists such as [builder_args] are
    compared item by item, in order. *)
Theorem Derivation_eq_literals_identical (a b : Derivation) :
  Derivation_eq a b = true ->
  forall l : literal,
    (system a = VLit l -> system b = VLit l)
    /\ (builder a = VLit l -> builder b = VLit l)
    /\ (builder_args a = VLit l -> builder_args b = VLit l).
Proof.
  intros Hab l. apply Derivation_eq_fields in Hab.
  destruct Hab as (_ & _ & _ & Hs & Hb & Ha & _).
  repeat split; intros Hl;
    [ rewrite Hl in Hs; destruct (system b)
    | rewrite Hl in Hb; destruct (builder b)
    | rewrite Hl in Ha; destruct (builder_args b) ];
    simpl in *; try discriminate; f_equal; symmetry; now apply literal_eqb_eq.
Qed.

Lemma Derivation_eq_literals_identical_example :
  Derivation_eq example_derivation example_derivation = true
  /\ forall l : literal,
       (system example_derivation = VLit l -> system example_derivation = VLit l)
       /\ (builder example_derivation = VLit l ->
           builder example_derivation = VLit l)
       /\ (builder_args example_derivation = VLit l ->
           builder_args example_derivation = VLit l).
Proof.
  split; [reflexivity|].
  apply (Derivation_eq_literals_identical example_derivation example_derivation).
  reflexivity.
Defined.

(** X10: two records that are equal under [__eq__] have the same [name]:
    when the property yields a value on one, it yields that value on the
    other. *)
Theorem Derivation_eq_same_name (a b : Derivation) (v : literal) :
  Derivation_eq a b = true -> name a = Ok v -> name b = Ok v.
Proof.
  intros Hab Hname. apply Derivation_eq_fields in Hab.
  destruct Hab as (_ & _ & _ & _ & _ & _ & He).
  unfold name, value_subscript in *.
  destruct (environment a) as [?|?|kvs]; try discriminate.
  destruct (environment b) as [?|?|kvs']; try discriminate.
  unfold dict_getitem in *. simpl in *.
  destruct (dict_get (LStr "name") kvs) as [v0|] eqn:Hget; [|discriminate].
  inversion Hname; subst. apply dict_get_In in Hget.
  apply andb_true_iff in He as [_ He]. rewrite forallb_forall in He.
  specialize (He _ Hget). simpl in He.
  destruct (dict_get (LStr "name") kvs') as [v'|]; [|discriminate].
  apply literal_eqb_eq in He. now subst.
Qed.

Lemma Derivation_eq_same_name_example :
  Derivation_eq example_derivation
    (vars_setitem "environment"
       (VDict [(LStr "name", LStr "foo")]) example_derivation) = true
  /\ name (vars_setitem "environment"
             (VDict [(LStr "name", LStr "foo")]) example_derivation)
     = Ok (LStr "foo").
Proof.
  split; [reflexivity|].
  apply (Derivation_eq_same_name example_derivation _ (LStr "foo"));
    reflexivity.
Defined.

(** ** What [input_paths] collects *)

Lemma set_add_In (xs xs' : list literal) (x : literal) :
  set_add xs x = Ok xs' -> forall p, In p xs' <-> In p xs \/ p = x.
Proof.
  unfold set_add, check_hashable.
  destruct (hashable x); simpl; [|discriminate].
  intros H p. inversion H; subst; clear H.
  destruct (set_contains x xs) eqn:Hc.
  - apply set_contains_In in Hc. split; [tauto|]. intros [?| ->]; assumption.
  - rewrite in_app_iff. simpl. intuition.
Qed.

Lemma set_of_In (xs acc acc' : list literal) :
  for_each set_add xs acc = Ok acc' ->
  forall p, In p acc' <-> In p acc \/ In p xs.
Proof.
  revert acc. induction xs as [|x xs IH]; intros acc H p; simpl in *.
  - inversion H; subst. tauto.
  - apply bind_Ok in H as (acc1 & Hadd & Hrest).
    rewrite (IH _ Hrest p), (set_add_In _ _ _ Hadd p). intuition.
Qed.

Lemma add_outputs_In (input_deriv : Derivation) (names acc acc' : list literal) :
  add_outputs input_deriv names acc = Ok acc' ->
  forall p, In p acc'
            <-> In p acc
                \/ exists output,
                     In output names
                     /\ value_subscript (outputs input_deriv) output = Ok p.
Proof.
  unfold add_outputs. revert acc.
  induction names as [|n names IH]; intros acc H p; simpl in *.
  - inversion H; subst. split; [tauto|].
    intros [?|(o & Ho & _)]; [assumption | destruct Ho].
  - apply bind_Ok in H as (acc1 & Hbody & Hrest).
    apply bind_Ok in Hbody as (v & Hv & Hadd).
    rewrite (IH _ Hrest p), (set_add_In _ _ _ Hadd p). split.
    + intros [[?| ->]|(o & Ho & Hp)]; [tauto | right; exists n; tauto |].
      right. exists o. tauto.
    + intros [?|(o & [->|Ho] & Hp)]; [tauto | |].
      * left. right. congruence.
      * right. exists o. tauto.
Qed.

Section InputPaths.

Variable literal_eval : string -> result literal.
Variable environ : string -> option string.
Variable read_file : string -> result string.

Lemma resolved_from_cons (entry : literal * literal)
    (entries : list (literal * literal)) (p : literal) :
  resolved_from literal_eval environ read_file (entry :: entries) p
  <-> resolved_from literal_eval environ read_file [entry] p \/ resolved_from literal_eval environ read_file entries p.
Proof.
  unfold resolved_from. split.
  - intros (dp & names & d & o & [->|Hin] & H).
    + left. exists dp, names, d, o. split; [now left | exact H].
    + right. exists dp, names, d, o. tauto.
  - intros [(dp & names & d & o & [->|[]] & H) | (dp & names & d & o & Hin & H)];
      exists dp, names, d, o; split; try exact H; [now left | now right].
Qed.

Lemma add_input_derivation_In (entry : literal * literal)
    (acc acc' : list literal) :
  add_input_derivation literal_eval environ read_file acc entry = Ok acc' ->
  forall p, In p acc' <-> In p acc \/ resolved_from literal_eval environ read_file [entry] p.
Proof.
  destruct entry as [key names]. unfold add_input_derivation. simpl.
  destruct key as [dp|?|?]; try discriminate.
  intros H p. apply bind_Ok in H as (d & Hd & Hadd).
  rewrite (add_outputs_In _ _ _ _ Hadd p). unfold resolved_from. split.
  - intros [?|(o & Ho & Hp)]; [tauto|]. right.
    exists dp, names, d, o. repeat split; try assumption. now left.
  - intros [?|(dp' & names' & d' & o & [Heq|[]] & Ho & Hd' & Hp)]; [tauto|].
    inversion Heq; subst. right. exists o. split; [assumption|]. congruence.
Qed.

Lemma input_derivations_In (entries : list (literal * literal))
    (acc acc' : list literal) :
  for_each (add_input_derivation literal_eval environ read_file) entries acc
  = Ok acc' ->
  forall p, In p acc' <-> In p acc \/ resolved_from literal_eval environ read_file entries p.
Proof.
  revert acc. induction entries as [|entry entries IH]; intros acc H p;
    simpl in H.
  - inversion H; subst. split; [tauto|].
    intros [?|(dp & names & d & o & Hin & _)]; [assumption | destruct Hin].
  - apply bind_Ok in H as (acc1 & Hentry & Hrest).
    rewrite (IH _ Hrest p), (add_input_derivation_In _ _ _ Hentry p),
      (resolved_from_cons entry entries p). tauto.
Qed.

(** X11: what a successful [input_paths] returns.  The result is a set;
    its elements are the elements of [input_files] and, for every entry of
    [input_derivations] and every output name the entry asks for, the
    value that the outputs of the parsed derivation file give to that
    name; it holds nothing else. *)
Theorem input_paths_elements (self : Derivation)
    (entries : list (literal * literal)) (v : value) :
  input_derivations self = VDict entries ->
  input_paths literal_eval environ read_file self = Ok v ->
  exists paths,
    v = VSet paths
    /\ forall p, In p paths
                 <-> In p (value_iter (input_files self))
                     \/ resolved_from literal_eval environ read_file entries p.
Proof.
  intros Hentries H. unfold input_paths in H.
  apply bind_Ok in H as (paths0 & Hfiles & H).
  rewrite Hentries in H. simpl in H.
  apply bind_Ok in H as (paths & Hloop & H).
  inversion H; subst. exists paths. split; [reflexivity|]. intros p.
  rewrite (input_derivations_In _ _ _ Hloop p).
  unfold set_of in Hfiles. rewrite (set_of_In _ _ _ Hfiles p). simpl. tauto.
Qed.

Lemma for_each_ext {A S : Type} (body body' : S -> A -> result S)
    (items : list A) :
  (forall x, In x items -> forall acc, body acc x = body' acc x) ->
  forall acc, for_each body items acc = for_each body' items acc.
Proof.
  induction items as [|x items IH]; intros Hext acc; simpl; [reflexivity|].
  rewrite (Hext x) by now left.
  destruct (body' acc x); simpl; [|reflexivity].
  apply IH. intros y Hy. apply Hext. now right.
Qed.

(** X12: [input_paths] reads the derivation files that the keys of
    [input_derivations] name and no other file.  It does not follow the
    inputs of those derivations: two file systems that agree on the files
    of the keys give the same result. *)
Theorem input_paths_reads_direct_inputs_only
    (read_file' : string -> result string) (self : Derivation)
    (entries : list (literal * literal)) :
  input_derivations self = VDict entries ->
  (forall deriv_path names,
      In (LStr deriv_path, names) entries ->
      read_file (resolve_path environ deriv_path)
      = read_file' (resolve_path environ deriv_path)) ->
  input_paths literal_eval environ read_file self
  = input_paths literal_eval environ read_file' self.
Proof.
  intros Hentries Hagree. unfold input_paths.
  destruct (set_of (value_iter (input_files self))) as [paths|e]; simpl;
    [|reflexivity].
  rewrite Hentries. simpl. f_equal.
  apply for_each_ext. intros [key names] Hin acc.
  unfold add_input_derivation. simpl. destruct key as [dp|?|?]; try reflexivity.
  unfold parse_derivation_file. now rewrite (Hagree dp names Hin).
Qed.

(** X13: the set that [input_paths] returns has hashable, pairwise
    different elements. *)
Theorem input_paths_is_a_set (self : Derivation) :
  match input_paths literal_eval environ read_file self with
  | Ok v => value_genuine v = true /\ exists paths, v = VSet paths
  | Raise _ => True
  end.
Proof.
  destruct (input_paths literal_eval environ read_file self) as [v|e] eqn:H;
    [|exact I].
  unfold input_paths in H.
  apply bind_Ok in H as (paths0 & Hfiles & H).
  apply bind_Ok in H as (entries & _ & H).
  apply bind_Ok in H as (paths & Hloop & H).
  inversion H; subst. split; [|eauto]. simpl.
  apply set_of_genuine in Hfiles. revert Hloop.
  apply (for_each_invariant
           (fun ps => distinct ps && forallb hashable ps = true));
    [|assumption].
  intros acc [key names] acc' Hacc Hbody.
  unfold add_input_derivation in Hbody. simpl in Hbody.
  destruct key as [dp|?|?]; try discriminate.
  apply bind_Ok in Hbody as (d & _ & Hadd). revert Hadd.
  unfold add_outputs.
  apply (for_each_invariant
           (fun ps => distinct ps && forallb hashable ps = true));
    [|assumption].
  intros acc0 output acc1 Hacc0 Hstep.
  apply bind_Ok in Hstep as (p & _ & Hset).
  eapply set_add_genuine; eauto.
Qed.

End InputPaths.

Lemma input_paths_elements_example :
  input_paths grammar_literal_eval no_environ example_files
    (consumer_of "/store/abc-foo.drv" "out") = Ok (VSet [LStr "/store/abc-foo"])
  /\ exists paths,
       VSet [LStr "/store/abc-foo"] = VSet paths
       /\ forall p,
            In p paths
            <-> In p (value_iter (input_files (consumer_of "/store/abc-foo.drv" "out")))
                \/ resolved_from grammar_literal_eval no_environ example_files
                     [(LStr "/store/abc-foo.drv", LList [LStr "out"])] p.
Proof.
  split; [reflexivity|].
  apply (input_paths_elements grammar_literal_eval no_environ example_files
           (consumer_of "/store/abc-foo.drv" "out")
           [(LStr "/store/abc-foo.drv", LList [LStr "out"])]
           (VSet [LStr "/store/abc-foo"]));
    reflexivity.
Defined.

Lemma input_paths_reads_direct_inputs_only_example :
  input_paths grammar_literal_eval no_environ example_files
    (consumer_of "/store/abc-foo.drv" "out")
  = input_paths grammar_literal_eval no_environ
      (fun path => if String.eqb path "/store/abc-foo.drv" then Ok example_text
                   else Raise (OSError "unreadable"))
      (consumer_of "/store/abc-foo.drv" "out").
Proof.
  apply (input_paths_reads_direct_inputs_only grammar_literal_eval no_environ
           example_files
           (fun path => if String.eqb path "/store/abc-foo.drv" then Ok example_text
                        else Raise (OSError "unreadable"))
           (consumer_of "/store/abc-foo.drv" "out")
           [(LStr "/store/abc-foo.drv", LList [LStr "out"])]).
  - reflexivity.
  - intros dp names [Heq|[]]. inversion Heq; subst. reflexivity.
Defined.

(** ** What [to_dict] and [display] write *)

Lemma listify_idempotent (v : value) : listify (listify v) = listify v.
Proof. unfold listify. now destruct v as [[?|?|?]|?|?]. Qed.

Lemma listify_not_set_or_tuple (v : value) : is_set_or_tuple (listify v) = false.
Proof. unfold listify. now destruct v as [[?|?|?]|?|?]. Qed.

Lemma to_dict_steps (d : Derivation) :
  fold_left to_dict_step attribute_names d = listify_all d.
Proof.
  destruct d as [o i f s b a e]. unfold listify_all, listify. simpl.
  unfold to_dict_step at 7. simpl. destruct (is_set_or_tuple o); simpl;
    (unfold to_dict_step at 6; simpl; destruct (is_set_or_tuple i); simpl;
     (unfold to_dict_step at 5; simpl; destruct (is_set_or_tuple f); simpl;
      (unfold to_dict_step at 4; simpl; destruct (is_set_or_tuple s); simpl;
       (unfold to_dict_step at 3; simpl; destruct (is_set_or_tuple b); simpl;
        (unfold to_dict_step at 2; simpl; destruct (is_set_or_tuple a); simpl;
         (unfold to_dict_step; simpl; destruct (is_set_or_tuple e);
          reflexivity)))))).
Qed.

Lemma to_dict_loop_cons (self : ref) (key : string) (keys : list string)
    (st : store) :
  to_dict_loop self (key :: keys) st
  = to_dict_loop self keys
      (match assoc key (vars (st self)) with
       | Some val =>
           if is_set_or_tuple val
           then store_set st self (vars_setitem key (list_of val) (st self))
           else st
       | None => st
       end).
Proof.
  cbn [to_dict_loop]. unfold mbind, getattr.
  destruct (assoc key (vars (st self))) as [val|]; [|reflexivity].
  now destruct (is_set_or_tuple val).
Qed.

Lemma to_dict_loop_run (self : ref) (keys : list string) (st : store) :
  snd (to_dict_loop self keys st) = Ok tt
  /\ forall r, fst (to_dict_loop self keys st) r
               = if r =? self then fold_left to_dict_step keys (st self)
                 else st r.
Proof.
  revert st. induction keys as [|key keys IH]; intros st.
  - split; [reflexivity|]. intros r. simpl.
    destruct (r =? self) eqn:Hr; [|reflexivity].
    apply Nat.eqb_eq in Hr. now subst.
  - rewrite to_dict_loop_cons. cbn [fold_left].
    destruct (assoc key (vars (st self))) as [val|] eqn:Hassoc;
      [destruct (is_set_or_tuple val) eqn:Hval|].
    + assert (to_dict_step (st self) key
              = vars_setitem key (list_of val) (st self)) as ->
        by (unfold to_dict_step; now rewrite Hassoc, Hval).
      destruct (IH (store_set st self
                      (vars_setitem key (list_of val) (st self)))) as [Hsnd Hfst].
      split; [exact Hsnd|]. intros r. rewrite Hfst, store_set_same.
      destruct (r =? self) eqn:Hr; [reflexivity|].
      apply Nat.eqb_neq in Hr. now apply store_set_other.
    + assert (to_dict_step (st self) key = st self) as ->
        by (unfold to_dict_step; now rewrite Hassoc, Hval).
      exact (IH st).
    + assert (to_dict_step (st self) key = st self) as ->
        by (unfold to_dict_step; now rewrite Hassoc).
      exact (IH st).
Qed.

Lemma to_dict_unfold (self : ref) (st : store) :
  to_dict self st
  = match to_dict_loop self attribute_names st with
    | (st1, Ok _) => (st1, Ok (vars (st1 self)))
    | (st1, Raise e) => (st1, Raise e)
    end.
Proof. reflexivity. Qed.

Lemma to_dict_run (self : ref) (st : store) :
  snd (to_dict self st) = Ok (vars (listify_all (st self)))
  /\ forall r, fst (to_dict self st) r
               = if r =? self then listify_all (st self) else st r.
Proof.
  rewrite to_dict_unfold.
  destruct (to_dict_loop_run self attribute_names st) as [Hsnd Hfst].
  destruct (to_dict_loop self attribute_names st) as [st1 [[]|e]];
    cbn [fst snd] in *; [|discriminate].
  rewrite (Hfst self), Nat.eqb_refl, to_dict_steps.
  split; [reflexivity|]. intros r. rewrite Hfst. now rewrite to_dict_steps.
Qed.

(** X14: [to_dict] never raises.  It replaces every attribute of the
    receiver that holds a set or a tuple by the list of its items, keeps
    the other attributes, leaves every other object as it is, and returns
    the attributes of the receiver as they then are. *)
Theorem to_dict_effect (self : ref) (st : store) :
  snd (to_dict self st) = Ok (vars (listify_all (st self)))
  /\ forall r, fst (to_dict self st) r
               = if r =? self then listify_all (st self) else st r.
Proof. exact (to_dict_run self st). Qed.

(** X15: [to_dict] is idempotent: a second call returns what the first
    returned and changes no object. *)
Theorem to_dict_idempotent (self : ref) (st : store) :
  snd (to_dict self (fst (to_dict self st))) = snd (to_dict self st)
  /\ forall r, fst (to_dict self (fst (to_dict self st))) r
               = fst (to_dict self st) r.
Proof.
  destruct (to_dict_run self st) as [Hsnd Hfst].
  destruct (to_dict_run self (fst (to_dict self st))) as [Hsnd' Hfst'].
  assert (listify_all (fst (to_dict self st) self) = listify_all (st self)) as Hl.
  { rewrite Hfst, Nat.eqb_refl. unfold listify_all. simpl.
    now rewrite !listify_idempotent. }
  split.
  - now rewrite Hsnd', Hsnd, Hl.
  - intros r. rewrite Hfst'. destruct (r =? self) eqn:Hr; [|reflexivity].
    apply Nat.eqb_eq in Hr. subst r. rewrite Hl, Hfst. now rewrite Nat.eqb_refl.
Qed.

(** X16: after [to_dict] no attribute of the receiver holds a set or a
    tuple, and neither does the dict that the method returns. *)
Theorem to_dict_leaves_no_set_or_tuple (self : ref) (st : store) :
  forallb (fun kv => negb (is_set_or_tuple (snd kv)))
    (vars (fst (to_dict self st) self)) = true
  /\ exists res, snd (to_dict self st) = Ok res
                 /\ forallb (fun kv => negb (is_set_or_tuple (snd kv))) res = true.
Proof.
  destruct (to_dict_run self st) as [Hsnd Hfst].
  rewrite Hfst, Nat.eqb_refl, Hsnd.
  assert (forallb (fun kv => negb (is_set_or_tuple (snd kv)))
            (vars (listify_all (st self))) = true) as Hall.
  { simpl. now rewrite !listify_not_set_or_tuple. }
  split; [exact Hall|]. eexists. split; [reflexivity | exact Hall].
Qed.

Section DisplayFacts.

Variable json_dumps : option nat -> printable -> result string.
Variable yaml_dump : printable -> result string.
Variable rtyaml_dump : printable -> result string.

Lemma select_keeps_store (self : ref) (selfdict : list (string * value))
    (attribute env_var : option string) (st : store) :
  fst (select self selfdict attribute env_var st) = st.
Proof.
  unfold select, mbind, mret, lift, getattr.
  destruct attribute as [a|], env_var as [e|]; simpl;
    try destruct (assoc a selfdict); try reflexivity.
  now destruct (value_subscript (environment (st self)) (LStr e)).
Qed.

(** X17: [display] writes what its call of [to_dict] writes and nothing
    more, whether it returns or raises: the store after [display] is the
    store after [to_dict]. *)
Theorem display_writes_as_to_dict (self : ref)
    (attribute env_var : option string) (format : string) (pretty : bool)
    (st : store) :
  fst (display json_dumps yaml_dump rtyaml_dump self attribute env_var format
         pretty st)
  = fst (to_dict self st).
Proof.
  unfold display. unfold mbind at 1.
  destruct (to_dict self st) as [st1 [selfdict|e]]; [|reflexivity].
  unfold mbind.
  pose proof (select_keeps_store self selfdict attribute env_var st1) as Hsel.
  destruct (select self selfdict attribute env_var st1) as [st2 [to_print|e]];
    simpl in Hsel; subst st2; [|reflexivity].
  unfold mret, lift.
  destruct to_print as [attrs|[[s|xs|xs]|xs|kvs]], pretty;
    destruct (String.eqb format "json"), (String.eqb format "yaml");
    reflexivity.
Qed.

(** When [attribute] is given, [env_var] is not looked at. *)
Lemma display_attribute_takes_precedence (self : ref) (a : string)
    (env_var : option string) (format : string) (pretty : bool) (st : store) :
  display json_dumps yaml_dump rtyaml_dump self (Some a) env_var format pretty st
  = display json_dumps yaml_dump rtyaml_dump self (Some a) None format pretty st.
Proof. unfold display, select. now destruct env_var. Qed.

Lemma assoc_unknown_attribute (a : string) (d : Derivation) :
  ~ In a attribute_names -> assoc a (vars d) = None.
Proof.
  intros Hnot. unfold attribute_names in Hnot. cbn [In] in Hnot.
  unfold vars. cbn [assoc].
  repeat match goal with
         | |- context [String.eqb ?k a] =>
             destruct (String.eqb_spec k a) as [Heq|_]; [exfalso; tauto|]
         end.
  reflexivity.
Qed.

(** X18: an [attribute] that is none of the seven attribute names, path
    among them, makes [display] raise the [KeyError] of that name,
    whatever the other arguments are. *)
Theorem display_unknown_attribute (self : ref) (a : string)
    (env_var : option string) (format : string) (pretty : bool) (st : store) :
  ~ In a attribute_names ->
  snd (display json_dumps yaml_dump rtyaml_dump self (Some a) env_var format
         pretty st)
  = Raise (KeyError (LStr a)).
Proof.
  intros Hnot. destruct (to_dict_run self st) as [Hsnd _].
  unfold display. unfold mbind at 1.
  destruct (to_dict self st) as [st1 [selfdict|e]]; simpl in Hsnd;
    [|discriminate].
  inversion Hsnd; subst. unfold mbind, select.
  now rewrite (assoc_unknown_attribute a _ Hnot).
Qed.

End DisplayFacts.

Lemma display_unknown_attribute_example :
  ~ In "path" attribute_names
  /\ snd (display no_json no_encoder no_encoder 0 (Some "path") None "json"
            false example_store)
     = Raise (KeyError (LStr "path")).
Proof.
  assert (~ In "path" attribute_names) as Hnot.
  { simpl. intros H. repeat (destruct H as [H|H]; [discriminate|]). exact H. }
  split; [exact Hnot|].
  apply (display_unknown_attribute no_json no_encoder no_encoder 0 "path" None
           "json" false example_store Hnot).
Defined.

(** ** What [diff] writes and reports *)

Lemma diff_unfold (self other : ref) (st : store) :
  diff self other st
  = match normalize_outputs self st with
    | (st1, Ok _) =>
        match normalize_outputs other st1 with
        | (st2, Ok _) =>
            (st2, Ok (datadiff_diff (vars (st2 self)) (vars (st2 other))))
        | (st2, Raise e) => (st2, Raise e)
        end
    | (st1, Raise e) => (st1, Raise e)
    end.
Proof.
  unfold diff, mbind.
  destruct (normalize_outputs self st) as [st1 [[]|e]]; [|reflexivity].
  now destruct (normalize_outputs other st1) as [st2 [[]|e]].
Qed.

Lemma normalize_outputs_inv (r : ref) (st st' : store) (u : unit) :
  normalize_outputs r st = (st', Ok u) ->
  exists kvs names,
    outputs (st r) = VDict kvs
    /\ sorted (dict_keys kvs) = Ok names
    /\ st' = store_set st r (vars_setitem "outputs" (VLit (LList names)) (st r)).
Proof.
  unfold normalize_outputs, mbind, getattr, lift, setitem.
  destruct (outputs (st r)) as [l|xs|kvs] eqn:Houts; simpl; try discriminate.
  destruct (sorted (dict_keys kvs)) as [names|e] eqn:Hsorted; [|discriminate].
  intros H. inversion H; subst. now exists kvs, names.
Qed.

Lemma normalize_outputs_of_list (r : ref) (st : store) (names : list literal) :
  outputs (st r) = VLit (LList names) ->
  normalize_outputs r st
  = (st, Raise (AttributeError "'list' object has no attribute 'keys'")).
Proof.
  intros Houts. unfold normalize_outputs, mbind, getattr, lift.
  now rewrite Houts.
Qed.

Lemma outputs_after_setitem (v : value) (d : Derivation) :
  outputs (vars_setitem "outputs" v d) = v.
Proof. reflexivity. Qed.

Lemma diff_inv (self other : ref) (st st' : store) (report : DataDiff) :
  diff self other st = (st', Ok report) ->
  self <> other
  /\ exists self_outputs other_outputs self_names other_names,
       outputs (st self) = VDict self_outputs
       /\ outputs (st other) = VDict other_outputs
       /\ sorted (dict_keys self_outputs) = Ok self_names
       /\ sorted (dict_keys other_outputs) = Ok other_names
       /\ st' self = vars_setitem "outputs" (VLit (LList self_names)) (st self)
       /\ st' other = vars_setitem "outputs" (VLit (LList other_names)) (st other)
       /\ (forall r, r <> self -> r <> other -> st' r = st r)
       /\ report = datadiff_diff (vars (st' self)) (vars (st' other)).
Proof.
  rewrite diff_unfold.
  destruct (normalize_outputs self st) as [st1 [[]|e]] eqn:H1; [|discriminate].
  destruct (normalize_outputs other st1) as [st2 [[]|e]] eqn:H2; [|discriminate].
  intros H. inversion H; subst; clear H.
  apply normalize_outputs_inv in H1 as (ka & na & Hka & Hna & ->).
  assert (self <> other) as Hne.
  { intros ->. rewrite normalize_outputs_of_list with (names := na) in H2;
      [discriminate|]. now rewrite store_set_same. }
  apply normalize_outputs_inv in H2 as (kb & nb & Hkb & Hnb & ->).
  rewrite store_set_other in Hkb by congruence.
  split; [exact Hne|]. exists ka, kb, na, nb.
  rewrite store_set_same.
  rewrite (store_set_other _ other self) by assumption.
  rewrite store_set_same.
  rewrite (store_set_other _ self other) by congruence.
  repeat split; try assumption.
  intros r Hrs Hro. now rewrite !store_set_other by assumption.
Qed.

(** X19: [diff] of an object with itself returns no report: it raises in
    every store. *)
Theorem diff_with_itself_always_raises (st : store) (r : ref) :
  exists e, snd (diff r r st) = Raise e.
Proof.
  destruct (diff r r st) as [st' [report|e]] eqn:H; [|now exists e].
  apply diff_inv in H as [Hne _]. now contradiction Hne.
Qed.

(** X20: what a successful [diff] has done.  The two objects are
    distinct and held dicts in [outputs]; each now holds the sorted list
    of its output names there and its other attributes as before; no other
    object has changed; the report compares the two objects as they then
    are. *)
Theorem diff_effect (self other : ref) (st st' : store) (report : DataDiff) :
  diff self other st = (st', Ok report) ->
  self <> other
  /\ exists self_outputs other_outputs self_names other_names,
       outputs (st self) = VDict self_outputs
       /\ outputs (st other) = VDict other_outputs
       /\ sorted (dict_keys self_outputs) = Ok self_names
       /\ sorted (dict_keys other_outputs) = Ok other_names
       /\ st' self = vars_setitem "outputs" (VLit (LList self_names)) (st self)
       /\ st' other = vars_setitem "outputs" (VLit (LList other_names)) (st other)
       /\ (forall r, r <> self -> r <> other -> st' r = st r)
       /\ report = datadiff_diff (vars (st' self)) (vars (st' other)).
Proof. exact (diff_inv self other st st' report). Qed.

Lemma diff_effect_example :
  snd (diff 0 1 two_objects) = Ok []
  /\ 0 <> 1
  /\ exists self_outputs other_outputs self_names other_names,
       outputs (two_objects 0) = VDict self_outputs
       /\ outputs (two_objects 1) = VDict other_outputs
       /\ sorted (dict_keys self_outputs) = Ok self_names
       /\ sorted (dict_keys other_outputs) = Ok other_names
       /\ fst (diff 0 1 two_objects) 0
          = vars_setitem "outputs" (VLit (LList self_names)) (two_objects 0)
       /\ fst (diff 0 1 two_objects) 1
          = vars_setitem "outputs" (VLit (LList other_names)) (two_objects 1)
       /\ (forall r, r <> 0 -> r <> 1 -> fst (diff 0 1 two_objects) r = two_objects r)
       /\ [] = datadiff_diff (vars (fst (diff 0 1 two_objects) 0))
                 (vars (fst (diff 0 1 two_objects) 1)).
Proof.
  split; [reflexivity|].
  apply (diff_effect 0 1 two_objects (fst (diff 0 1 two_objects)) []).
  reflexivity.
Defined.

Lemma diff_raises_on_list (a b : ref) (st : store) (names : list literal) :
  (outputs (st a) = VLit (LList names) \/ outputs (st b) = VLit (LList names)) ->
  exists e, snd (diff a b st) = Raise e.
Proof.
  intros Hlist.
  destruct (diff a b st) as [st' [report|e]] eqn:H; [|now exists e].
  apply diff_inv in H as (_ & ka & kb & _ & _ & Hka & Hkb & _).
  destruct Hlist as [Hl|Hl]; congruence.
Qed.

(** X21: a successful [diff] can not be repeated.  Afterwards every
    [diff] that takes one of the two objects as an argument raises, and so
    does [output_names] on each of them. *)
Theorem diff_is_not_repeatable (self other : ref) (st st' : store)
    (report : DataDiff) :
  diff self other st = (st', Ok report) ->
  forall r, r = self \/ r = other ->
    (forall c, exists e, snd (diff r c st') = Raise e)
    /\ (forall c, exists e, snd (diff c r st') = Raise e)
    /\ exists e, output_names (st' r) = Raise e.
Proof.
  intros H r Hr.
  apply diff_inv in H
    as (_ & ka & kb & na & nb & _ & _ & _ & _ & Hself & Hother & _).
  assert (exists names, outputs (st' r) = VLit (LList names)) as [names Hlist].
  { destruct Hr as [-> | ->]; [exists na; rewrite Hself | exists nb; rewrite Hother];
      apply outputs_after_setitem. }
  repeat split.
  - intros c. apply (diff_raises_on_list r c st' names). now left.
  - intros c. apply (diff_raises_on_list c r st' names). now right.
  - unfold output_names. rewrite Hlist. simpl. eauto.
Qed.

Lemma diff_is_not_repeatable_example :
  snd (diff 0 1 example_store) = Ok []
  /\ forall r, r = 0 \/ r = 1 ->
       (forall c, exists e, snd (diff r c (fst (diff 0 1 example_store))) = Raise e)
       /\ (forall c, exists e, snd (diff c r (fst (diff 0 1 example_store))) = Raise e)
       /\ exists e, output_names (fst (diff 0 1 example_store) r) = Raise e.
Proof.
  split; [reflexivity|].
  apply (diff_is_not_repeatable 0 1 example_store
           (fst (diff 0 1 example_store)) []).
  reflexivity.
Defined.

Lemma datadiff_empty_iff_eq (a b : Derivation) :
  datadiff_diff (vars a) (vars b) = [] <-> Derivation_eq a b = true.
Proof.
  destruct a as [o i f s b0 a0 e], b as [o' i' f' s' b0' a0' e'].
  unfold datadiff_diff, Derivation_eq, attrs_eqb. simpl.
  destruct (value_eqb o o'), (value_eqb i i'), (value_eqb f f'),
    (value_eqb s s'), (value_eqb b0 b0'), (value_eqb a0 a0'),
    (value_eqb e e'); simpl; split; intros H; try reflexivity;
    discriminate.
Qed.

Lemma str_insert_Permutation (x : string) (l : list string) :
  Permutation (str_insert x l) (x :: l).
Proof.
  induction l as [|y l IH]; simpl; [apply Permutation_refl|].
  destruct (String.ltb y x); [|apply Permutation_refl].
  eapply perm_trans; [apply perm_skip, IH | apply perm_swap].
Qed.

Lemma str_sort_is_Permutation (l : list string) : Permutation (str_sort l) l.
Proof.
  induction l as [|x l IH]; simpl; [apply Permutation_refl|].
  eapply perm_trans; [apply str_insert_Permutation | now apply perm_skip].
Qed.

Lemma sorted_is_Permutation (xs names : list literal) :
  forallb is_str xs = true -> sorted xs = Ok names -> Permutation names xs.
Proof.
  intros Hstr H. rewrite (sorted_str xs Hstr) in H. inversion H; subst.
  rewrite (all_str xs Hstr) at 2. apply Permutation_map, str_sort_is_Permutation.
Qed.

Lemma Permutation_set_eqb (xs ys : list literal) :
  Permutation xs ys -> value_eqb (VSet xs) (VSet ys) = true.
Proof.
  intros Hp. simpl. rewrite (Permutation_length Hp), Nat.eqb_refl. simpl.
  apply forallb_forall. intros x Hx. apply set_contains_In.
  eapply Permutation_in; eauto.
Qed.

(** X22: when [diff] reports no difference.  For two distinct objects
    whose outputs are dicts with string names, the report is empty exactly
    when the two sets of output names are equal and each of the six other
    attributes is equal under [==] on the two sides. *)
Theorem diff_reports_nothing_iff (st : store) (self other : ref)
    (self_outputs other_outputs : list (literal * literal)) :
  self <> other ->
  outputs (st self) = VDict self_outputs ->
  outputs (st other) = VDict other_outputs ->
  forallb is_str (dict_keys self_outputs) = true ->
  forallb is_str (dict_keys other_outputs) = true ->
  distinct (dict_keys self_outputs) = true ->
  snd (diff self other st) = Ok []
  <-> value_eqb (VSet (dict_keys self_outputs)) (VSet (dict_keys other_outputs))
      = true
      /\ value_eqb (input_derivations (st self)) (input_derivations (st other)) = true
      /\ value_eqb (input_files (st self)) (input_files (st other)) = true
      /\ value_eqb (system (st self)) (system (st other)) = true
      /\ value_eqb (builder (st self)) (builder (st other)) = true
      /\ value_eqb (builder_args (st self)) (builder_args (st other)) = true
      /\ value_eqb (environment (st self)) (environment (st other)) = true.
Proof.
  intros Hne Hself Hother Hstr Hstr' Hdistinct.
  pose proof (sorted_str _ Hstr) as Hsorted.
  pose proof (sorted_str _ Hstr') as Hsorted'.
  remember (map LStr (str_sort (map str_of (dict_keys self_outputs)))) as na.
  remember (map LStr (str_sort (map str_of (dict_keys other_outputs)))) as nb.
  clear Heqna Heqnb.
  rewrite diff_unfold.
  rewrite (normalize_outputs_run st self self_outputs na Hself Hsorted).
  rewrite (normalize_outputs_run _ other other_outputs nb);
    [| rewrite store_set_other by congruence; exact Hother | exact Hsorted'].
  cbn [snd].
  rewrite store_set_same.
  rewrite (store_set_other _ other self) by assumption.
  rewrite store_set_same.
  rewrite (store_set_other _ self other) by congruence.
  split.
  - intros H. inversion H as [Hempty]. clear H.
    apply datadiff_empty_iff_eq, Derivation_eq_fields in Hempty.
    destruct Hempty as (Ho & Hrest). split; [|exact Hrest].
    rewrite !outputs_after_setitem in Ho. apply literal_eqb_eq in Ho.
    injection Ho as Hnames. subst nb.
    apply Permutation_set_eqb.
    eapply perm_trans;
      [ apply Permutation_sym, (sorted_is_Permutation _ _ Hstr Hsorted)
      | apply (sorted_is_Permutation _ _ Hstr' Hsorted') ].
  - intros (Hnames & Hrest). f_equal.
    apply datadiff_empty_iff_eq, Derivation_eq_fields.
    split; [|exact Hrest].
    rewrite !outputs_after_setitem.
    destruct (sorted_same_names _ _ Hdistinct Hstr Hnames)
      as (names & Hs & Hs').
    rewrite Hsorted in Hs. rewrite Hsorted' in Hs'.
    injection Hs as Hn. injection Hs' as Hn'. subst na nb.
    apply literal_eqb_refl.
Qed.

Lemma diff_reports_nothing_iff_example :
  snd (diff 0 1 two_objects) = Ok []
  <-> value_eqb (VSet (dict_keys left_outputs)) (VSet (dict_keys right_outputs))
      = true
      /\ value_eqb (input_derivations (two_objects 0))
           (input_derivations (two_objects 1)) = true
      /\ value_eqb (input_files (two_objects 0)) (input_files (two_objects 1)) = true
      /\ value_eqb (system (two_objects 0)) (system (two_objects 1)) = true
      /\ value_eqb (builder (two_objects 0)) (builder (two_objects 1)) = true
      /\ value_eqb (builder_args (two_objects 0)) (builder_args (two_objects 1)) = true
      /\ value_eqb (environment (two_objects 0)) (environment (two_objects 1)) = true.
Proof.
  apply (diff_reports_nothing_iff two_objects 0 1 left_outputs right_outputs);
    try reflexivity.
  discriminate.
Defined.

(** ** Path resolution *)

Lemma prefix_empty (s : string) : String.prefix EmptyString s = true.
Proof. now destruct s. Qed.

Lemma isabs_append (a b : string) : isabs a = true -> isabs (a ++ b) = true.
Proof.
  unfold isabs. destruct a as [|c a]; cbn [String.prefix append];
    [discriminate|].
  destruct (ascii_dec "/" c); [|discriminate].
  intros _. apply prefix_empty.
Qed.

Lemma isabs_path_join (a b : string) :
  isabs a = true -> isabs (path_join a b) = true.
Proof.
  intros Ha. unfold path_join.
  destruct (String.prefix "/" b) eqn:Hb; [exact Hb|].
  destruct (String.eqb a EmptyString || ends_with_slash a);
    now apply isabs_append.
Qed.

(** X23: resolving a path twice is resolving it once, when the store root
    [NIX_STORE] is unset or absolute: a resolved path is opened as it is by
    every later call. *)
Theorem resolve_path_idempotent (environ : string -> option string)
    (derivation_path : string) :
  (forall nix_store, environ "NIX_STORE" = Some nix_store ->
                     isabs nix_store = true) ->
  resolve_path environ (resolve_path environ derivation_path)
  = resolve_path environ derivation_path.
Proof.
  intros Hroot.
  destruct (isabs derivation_path) eqn:Habs.
  - assert (resolve_path environ derivation_path = derivation_path) as ->
      by (unfold resolve_path; now rewrite Habs).
    unfold resolve_path. now rewrite Habs.
  - destruct (environ "NIX_STORE") as [nix_store|] eqn:Henv.
    + assert (resolve_path environ derivation_path
              = path_join nix_store derivation_path) as ->
        by (unfold resolve_path; now rewrite Habs, Henv).
      unfold resolve_path.
      now rewrite (isabs_path_join nix_store derivation_path (Hroot _ eq_refl)).
    + assert (resolve_path environ derivation_path = derivation_path) as ->
        by (unfold resolve_path; now rewrite Habs, Henv).
      unfold resolve_path. now rewrite Habs, Henv.
Qed.

Lemma resolve_path_idempotent_example :
  resolve_path (fun key => if String.eqb key "NIX_STORE" then Some "/nix/store"
                           else None) "abc-foo.drv"
  = "/nix/store/abc-foo.drv"
  /\ resolve_path (fun key => if String.eqb key "NIX_STORE" then Some "/nix/store"
                              else None)
       (resolve_path (fun key => if String.eqb key "NIX_STORE"
                                 then Some "/nix/store" else None)
          "abc-foo.drv")
     = resolve_path (fun key => if String.eqb key "NIX_STORE"
                                then Some "/nix/store" else None) "abc-foo.drv".
Proof.
  split; [reflexivity|].
  apply (resolve_path_idempotent
           (fun key => if String.eqb key "NIX_STORE" then Some "/nix/store"
                       else None) "abc-foo.drv").
  intros nix_store H. simpl in H. injection H as <-. reflexivity.
Defined.

Example relative_store_root_is_joined_again :
  resolve_path (fun key => if String.eqb key "NIX_STORE" then Some "store"
                           else None)
    (resolve_path (fun key => if String.eqb key "NIX_STORE" then Some "store"
                              else None) "abc-foo.drv")
  = "store/store/abc-foo.drv".
Proof. reflexivity. Qed.

(** ** The command line *)

Section MainFacts.

Variable literal_eval : string -> result literal.
Variable environ : string -> option string.
Variable read_file : string -> result string.
Variable json_dumps : option nat -> printable -> result string.
Variable yaml_dump : printable -> result string.
Variable rtyaml_dump : printable -> result string.
Variable datadiff_str : DataDiff -> string.
Variable diff_derivations :
  Derivation -> Derivation -> result (string + string * string * string).

Lemma show_namespace_plain (path : string) (opts : list cli.show_option)
    (ns : cli.namespace) :
  forallb (fun opt => negb (cli.is_format_flag opt)
                      && negb (cli.is_pretty_flag opt)) opts = true ->
  cli.command (fold_left cli.apply_option opts ns) = cli.command ns
  /\ cli.format (fold_left cli.apply_option opts ns) = cli.format ns
  /\ cli.pretty (fold_left cli.apply_option opts ns) = cli.pretty ns
  /\ cli.derivation_path (fold_left cli.apply_option opts ns)
     = cli.derivation_path ns.
Proof.
  revert ns. induction opts as [|opt opts IH]; intros ns Hplain; simpl in *.
  - repeat split.
  - apply andb_true_iff in Hplain as [Hopt Hplain].
    destruct (IH (cli.apply_option ns opt) Hplain) as (Hc & Hf & Hp & Hd).
    rewrite Hc, Hf, Hp, Hd.
    destruct opt; simpl in Hopt; try discriminate; repeat split.
Qed.

Lemma display_without_format_raises (self : ref)
    (attribute env_var : option string) (st : store) :
  exists e,
    snd (display json_dumps yaml_dump rtyaml_dump self attribute env_var
           "string" false st) = Raise e.
Proof.
  unfold display, mbind.
  destruct (to_dict self st) as [st1 [selfdict|e]]; [|now exists e].
  destruct (select self selfdict attribute env_var st1) as [st2 [to_print|e]];
    [|now exists e].
  destruct to_print as [attrs|[[s|xs|xs]|xs|kvs]]; simpl; eauto.
Qed.

(** X24: the command show prints nothing unless a format flag or the
    pretty flag is given.  [set_defaults] makes string the format, which
    [display] does not know: with options that hold neither of the
    format flags nor the pretty flag, [main] ends in an exception, whatever
    the file holds and whichever attribute or variable is selected. *)
Theorem show_without_flags_raises (path : string)
    (opts : list cli.show_option) :
  forallb (fun opt => negb (cli.is_format_flag opt)
                      && negb (cli.is_pretty_flag opt)) opts = true ->
  exists e,
    cli.main literal_eval environ read_file json_dumps yaml_dump rtyaml_dump
      datadiff_str diff_derivations (cli.show_namespace path opts)
    = cli.Raised e.
Proof.
  intros Hplain. unfold cli.show_namespace, cli.main.
  destruct (show_namespace_plain path opts (cli.show_defaults path) Hplain)
    as (Hc & Hf & Hp & Hd).
  rewrite Hc, Hf, Hp, Hd. cbn [cli.command cli.format cli.pretty
                                cli.derivation_path cli.show_defaults].
  change (String.eqb "show" "show") with true. cbv iota.
  destruct (parse_derivation_file literal_eval environ read_file path)
    as [deriv|e]; [|now exists e].
  cbn [bind].
  destruct (display_without_format_raises 0
              (cli.attribute (fold_left cli.apply_option opts
                                (cli.show_defaults path)))
              (cli.env_var (fold_left cli.apply_option opts
                              (cli.show_defaults path)))
              (fun _ => deriv)) as [e He].
  rewrite He. now exists e.
Qed.

Lemma parse_derivation_file_ok (derivation_path : string) (d : Derivation) :
  parse_derivation_file literal_eval environ read_file derivation_path = Ok d ->
  Derivation_ok d = true.
Proof.
  unfold parse_derivation_file. intros H.
  apply bind_Ok in H as (source & _ & H).
  destruct (parse_derivation literal_eval source
              (resolve_path environ derivation_path)) as [d'|e] eqn:Hp;
    [|discriminate].
  inversion H; subst. eapply parse_derivation_ok; eauto.
Qed.

(** X25: the command diff on one file given twice reports no difference,
    when the file parses and its output names are strings.  The file is
    parsed into two objects, so [diff] does not meet the object it has
    already written to. *)
Theorem diff_of_a_file_with_itself (path : string) (d : Derivation)
    (outs : list (literal * literal)) :
  parse_derivation_file literal_eval environ read_file path = Ok d ->
  outputs d = VDict outs ->
  forallb is_str (dict_keys outs) = true ->
  cli.main literal_eval environ read_file json_dumps yaml_dump rtyaml_dump
    datadiff_str diff_derivations (cli.diff_namespace "diff" path path)
  = cli.Printed [datadiff_str []].
Proof.
  intros Hparse Houts Hstr.
  pose proof (parse_derivation_file_ok path d Hparse) as Hok.
  unfold cli.main, cli.diff_namespace.
  cbn [cli.command cli.first cli.second].
  change (String.eqb "diff" "show") with false.
  change (String.eqb "diff" "diff") with true. cbv iota.
  rewrite Hparse. cbn [bind].
  pose proof (sorted_str _ Hstr) as Hsorted.
  remember (map LStr (str_sort (map str_of (dict_keys outs)))) as names.
  clear Heqnames.
  rewrite diff_unfold.
  rewrite (normalize_outputs_run (two_object_store d d) 0 outs names Houts Hsorted).
  rewrite (normalize_outputs_run _ 1 outs names);
    [| rewrite store_set_other by discriminate; exact Houts | exact Hsorted].
  cbn [snd bind].
  rewrite store_set_same.
  rewrite (store_set_other _ 1 0) by discriminate.
  rewrite store_set_same.
  rewrite (store_set_other _ 0 1) by discriminate.
  assert (datadiff_diff
            (vars (vars_setitem "outputs" (VLit (LList names)) (two_object_store d d 0)))
            (vars (vars_setitem "outputs" (VLit (LList names)) (two_object_store d d 1)))
          = []) as ->; [|reflexivity].
  apply datadiff_empty_iff_eq. change (two_object_store d d 0) with d.
  change (two_object_store d d 1) with d.
  apply Derivation_eq_refl.
  destruct d as [o i f s b a e]. unfold Derivation_ok in *. simpl in *.
  rewrite !andb_true_iff in Hok. destruct Hok as (_ & ? & ? & ? & ? & ? & ? & _).
  rewrite !andb_true_iff. repeat split; assumption.
Qed.

End MainFacts.

Lemma show_without_flags_raises_example :
  cli.main grammar_literal_eval no_environ example_files no_json no_encoder
    no_encoder (fun _ => EmptyString) (fun _ _ => Ok (inl EmptyString))
    (cli.show_namespace "/store/abc-foo.drv" [cli.OptAttribute "system"])
  = cli.Raised (ValueError "Invalid format: string")
  /\ exists e,
       cli.main grammar_literal_eval no_environ example_files no_json no_encoder
         no_encoder (fun _ => EmptyString) (fun _ _ => Ok (inl EmptyString))
         (cli.show_namespace "/store/abc-foo.drv" [cli.OptAttribute "system"])
       = cli.Raised e.
Proof.
  split; [reflexivity|].
  apply (show_without_flags_raises grammar_literal_eval no_environ example_files
           no_json no_encoder no_encoder (fun _ => EmptyString)
           (fun _ _ => Ok (inl EmptyString)) "/store/abc-foo.drv"
           [cli.OptAttribute "system"]).
  reflexivity.
Defined.

Example show_pretty_attribute_prints :
  cli.main grammar_literal_eval no_environ example_files no_json no_encoder
    no_encoder (fun _ => EmptyString) (fun _ _ => Ok (inl EmptyString))
    (cli.show_namespace "/store/abc-foo.drv"
       [cli.OptPretty; cli.OptAttribute "system"])
  = cli.Printed ["x86_64-linux"].
Proof. reflexivity. Qed.

Lemma diff_of_a_file_with_itself_example :
  parse_derivation_file grammar_literal_eval no_environ example_files
    "/store/abc-foo.drv" = Ok example_derivation
  /\ cli.main grammar_literal_eval no_environ example_files no_json no_encoder
       no_encoder (fun _ => "no difference") (fun _ _ => Ok (inl EmptyString))
       (cli.diff_namespace "diff" "/store/abc-foo.drv" "/store/abc-foo.drv")
     = cli.Printed ["no difference"].
Proof.
  split; [reflexivity|].
  apply (diff_of_a_file_with_itself grammar_literal_eval no_environ example_files
           no_json no_encoder no_encoder (fun _ => "no difference")
           (fun _ _ => Ok (inl EmptyString)) "/store/abc-foo.drv"
           example_derivation [(LStr "out", LStr "/store/abc-foo")]);
    reflexivity.
Defined.
